(** * Adobe Connect Downloader: a shallow embedding of [adobe_downloader.py]

    The Python program is embedded function by function.  Text is modelled
    as sequences of characters whose code points lie below 256 (Python [str]
    restricted to Latin-1), the file system as a finite map from paths to
    nodes, and every effect of the program (HTTP requests, file system
    updates, calls of the transcoding collaborator, log records) is threaded
    through an explicit state-and-exception monad that also records a trace
    of the effects in the order in which they happen. *)

From Stdlib Require Import String Ascii ZArith NArith List Bool Lia.
From stdpp Require Import gmap strings list fin_maps sorting.
Import ListNotations.

Set Default Proof Using "Type".

(* ===================================================================== *)
(** * Part I: definitions *)
(* ===================================================================== *)

(** ** Python strings *)

Definition pystr := list ascii.

Definition str (s : string) : pystr := list_ascii_of_string s.
Arguments str s%_string.

Module Py.

Definition code (c : ascii) : N := N_of_ascii c.

Definition in_range (lo hi : N) (c : ascii) : bool :=
  ((lo <=? code c) && (code c <=? hi))%N.

Definition is_code (n : N) (c : ascii) : bool := (code c =? n)%N.

Definition is_ascii_digit : ascii -> bool := in_range 48 57.
Definition is_ascii_upper : ascii -> bool := in_range 65 90.
Definition is_ascii_lower : ascii -> bool := in_range 97 122.
Definition is_ascii_alpha (c : ascii) : bool :=
  is_ascii_upper c || is_ascii_lower c.
Definition is_ascii_alnum (c : ascii) : bool :=
  is_ascii_alpha c || is_ascii_digit c.

(** [str.isspace] on one character, which is also what [\s] matches in a
    [str] pattern: TAB..CR, FS..US, space, NEL and the no-break space. *)
Definition is_space (c : ascii) : bool :=
  in_range 9 13 c || in_range 28 32 c || is_code 133 c || is_code 160 c.

(** [str.isdigit] on one character.  Besides the ASCII digits it accepts
    the superscript digits U+00B2, U+00B3 and U+00B9, which [int] does not
    parse. *)
Definition is_digit_char (c : ascii) : bool :=
  is_ascii_digit c || is_code 178 c || is_code 179 c || is_code 185 c.

Definition is_upper (c : ascii) : bool :=
  is_ascii_upper c || (in_range 192 222 c && negb (is_code 215 c)).

Definition lower_char (c : ascii) : ascii :=
  if is_upper c then ascii_of_N (code c + 32) else c.

(** [s.lower()] *)
Definition lower (s : pystr) : pystr := map lower_char s.

Definition eqb (s t : pystr) : bool := bool_decide (s = t).

(** [s.startswith(p)] and [s.endswith(p)] *)
Fixpoint startswith (s p : pystr) : bool :=
  match p, s with
  | [], _ => true
  | c :: p', d :: s' => Ascii.eqb c d && startswith s' p'
  | _ :: _, [] => false
  end.

Definition endswith (s p : pystr) : bool := startswith (rev s) (rev p).

(** [p in s] for strings *)
Fixpoint contains (s p : pystr) : bool :=
  startswith s p ||
  match s with
  | [] => false
  | _ :: s' => contains s' p
  end.

(** [c in s] for a single character *)
Definition has_char (c : ascii) (s : pystr) : bool := existsb (Ascii.eqb c) s.

Fixpoint lstrip_by (f : ascii -> bool) (s : pystr) : pystr :=
  match s with
  | c :: s' => if f c then lstrip_by f s' else s
  | [] => []
  end.

Definition rstrip_by (f : ascii -> bool) (s : pystr) : pystr :=
  rev (lstrip_by f (rev s)).

Definition strip_by (f : ascii -> bool) (s : pystr) : pystr :=
  rstrip_by f (lstrip_by f s).

(** [s.strip()] and [s.strip('/')] *)
Definition strip (s : pystr) : pystr := strip_by is_space s.
Definition strip_char (c : ascii) (s : pystr) : pystr := strip_by (Ascii.eqb c) s.

(** [s.split(sep)] for a one-character separator: the pieces between the
    separators, always at least one piece. *)
Fixpoint split (sep : ascii) (s : pystr) : list pystr :=
  match s with
  | [] => [[]]
  | c :: s' =>
      if Ascii.eqb c sep then [] :: split sep s'
      else match split sep s' with
           | piece :: rest => (c :: piece) :: rest
           | [] => [[c]]
           end
  end.

(** [s.split(sep, 1)]: cut at the first separator only. *)
Fixpoint split_once (sep : ascii) (s : pystr) : pystr * option pystr :=
  match s with
  | [] => ([], None)
  | c :: s' =>
      if Ascii.eqb c sep then ([], Some s')
      else let '(a, b) := split_once sep s' in (c :: a, b)
  end.

(** [l[0]] and [l[-1]] of a list of pieces *)
Definition first_piece (l : list pystr) : pystr := hd [] l.
Definition last_piece (l : list pystr) : pystr := List.last l [].

(** [s.isdigit()] *)
Definition isdigit (s : pystr) : bool :=
  match s with
  | [] => false
  | _ => forallb is_digit_char s
  end.

Definition digit_value (c : ascii) : Z := Z.of_N (code c) - 48.

(** Value of a run of digit groups separated by single underscores, the
    body of an [int] literal: [None] when the text is malformed. *)
Fixpoint int_digits (acc : Z) (after_digit : bool) (s : pystr) : option Z :=
  match s with
  | [] => if after_digit then Some acc else None
  | c :: s' =>
      if is_ascii_digit c then int_digits (10 * acc + digit_value c) true s'
      else if is_code 95 c && after_digit then
        match s' with
        | d :: _ => if is_ascii_digit d then int_digits acc false s' else None
        | [] => None
        end
      else None
  end.

(** [int(s)] in base ten: surrounding whitespace, one optional sign, then
    digits; [None] stands for [ValueError]. *)
Definition int (s : pystr) : option Z :=
  match strip s with
  | c :: s' =>
      if is_code 45 c then Z.opp <$> int_digits 0 false s'
      else if is_code 43 c then int_digits 0 false s'
      else int_digits 0 false (c :: s')
  | [] => None
  end.

(** Length of the longest prefix whose characters satisfy [f]. *)
Fixpoint run_length (f : ascii -> bool) (s : pystr) : nat :=
  match s with
  | c :: s' => if f c then S (run_length f s') else 0
  | [] => 0
  end.

End Py.

(** ** Regular expressions

    The fragment of Python's [re] that the program uses: literals,
    character classes, a greedy repetition of one literal or class (with
    backtracking), one capturing group around such a repetition, and the
    end anchor.  [ic] is the [re.IGNORECASE] flag. *)

Module Re.

Inductive atom :=
| Lit (c : ascii)
| Cls (p : ascii -> bool).

Inductive item :=
| One (a : atom)
| Rep (capture : bool) (lo : nat) (a : atom)
| Eos.

Definition regex := list item.

Definition atom_ok (ic : bool) (a : atom) (c : ascii) : bool :=
  match a with
  | Lit l =>
      if ic then Ascii.eqb (Py.lower_char c) (Py.lower_char l)
      else Ascii.eqb c l
  | Cls p => p c
  end.

(** [$]: at the end of the text, or just before a final newline. *)
Definition at_end (s : pystr) : bool :=
  match s with
  | [] => true
  | [c] => Py.is_code 10 c
  | _ => false
  end.

(** Try [f k], [f (k-1)], ... down to [f lo]: greedy first, then
    backtrack. *)
Fixpoint try_down {X} (f : nat -> option X) (lo k : nat) : option X :=
  if (k <? lo)%nat then None
  else match f k with
       | Some x => Some x
       | None =>
           match k with
           | O => None
           | S k' => try_down f lo k'
           end
       end.

(** Match [r] at the start of [s]; [g] is the text of group 1 so far. *)
Fixpoint match_here (ic : bool) (r : regex) (s g : pystr) : option pystr :=
  match r with
  | [] => Some g
  | One a :: r' =>
      match s with
      | c :: s' => if atom_ok ic a c then match_here ic r' s' g else None
      | [] => None
      end
  | Rep cap lo a :: r' =>
      try_down
        (fun k => match_here ic r' (drop k s) (if cap then take k s else g))
        lo (Py.run_length (atom_ok ic a) s)
  | Eos :: r' => if at_end s then match_here ic r' s g else None
  end.

(** [re.match(r, s).group(1)] *)
Definition re_match (ic : bool) (r : regex) (s : pystr) : option pystr :=
  match_here ic r s [].

(** [re.search(r, s).group(1)]: the leftmost position at which [r]
    matches. *)
Fixpoint re_search (ic : bool) (r : regex) (s : pystr) : option pystr :=
  match match_here ic r s [] with
  | Some g => Some g
  | None =>
      match s with
      | [] => None
      | _ :: s' => re_search ic r s'
      end
  end.

Definition lits (s : pystr) : regex := map (fun c => One (Lit c)) s.

Definition dquote : ascii := ascii_of_N 34.

Definition digits_group : item := Rep true 1 (Cls Py.is_ascii_digit).
Definition spaces : item := Rep false 0 (Cls Py.is_space).

End Re.

(** ** Exceptions and results *)

Inductive exn :=
| ValueError
| OSError
| FileNotFoundError
| BadZipFile
| RequestException
| HTTPError
| AttributeError.

Inductive result (A : Type) :=
| Ok (a : A)
| Raise (e : exn).
Arguments Ok {A} a.
Arguments Raise {A} e.

(** [except OSError] also catches its subclass [FileNotFoundError]. *)
Definition is_OSError (e : exn) : bool :=
  match e with
  | OSError | FileNotFoundError => true
  | _ => false
  end.

Definition is_BadZipFile (e : exn) : bool :=
  match e with
  | BadZipFile => true
  | _ => false
  end.

(** ** [urllib.parse.urlparse] *)

Module Url.

Record ParseResult := {
  scheme : pystr;
  netloc : pystr;
  path : pystr;
  params : pystr;
  query : pystr;
  fragment : pystr
}.

Definition scheme_char (c : ascii) : bool :=
  Py.is_ascii_alnum c || Py.is_code 43 c || Py.is_code 45 c || Py.is_code 46 c.

Definition uses_params : list pystr :=
  map str [""; "ftp"; "hdl"; "prospero"; "http"; "imap"; "https"; "shttp";
           "rtsp"; "rtsps"; "rtspu"; "sip"; "sips"; "mms"; "sftp"; "tel"].

(** Leading C0 controls and spaces are dropped; TAB, CR and LF are
    removed everywhere. *)
Definition sanitize (url : pystr) : pystr :=
  filter (fun c => negb (Py.is_code 9 c || Py.is_code 13 c || Py.is_code 10 c))
         (Py.lstrip_by (Py.in_range 0 32) url).

Definition index_of (c : ascii) (s : pystr) : option nat :=
  if Py.has_char c s then Some (Py.run_length (fun d => negb (Ascii.eqb c d)) s)
  else None.

Definition rindex_of (c : ascii) (s : pystr) : option nat :=
  if Py.has_char c s
  then Some (length s - S (Py.run_length (fun d => negb (Ascii.eqb c d)) (rev s)))
  else None.

Definition split_scheme (url : pystr) : pystr * pystr :=
  match index_of ":" url, url with
  | Some (S i), c :: _ =>
      if Py.is_ascii_alpha c && forallb scheme_char (take (S i) url)
      then (Py.lower (take (S i) url), drop (S (S i)) url)
      else ([], url)
  | _, _ => ([], url)
  end.

Definition netloc_char (c : ascii) : bool :=
  negb (Py.is_code 47 c || Py.is_code 63 c || Py.is_code 35 c).

Definition split_netloc (url : pystr) : pystr * pystr :=
  if Py.startswith url (str "//") then
    let rest := drop 2 url in
    let n := Py.run_length netloc_char rest in
    (take n rest, drop n rest)
  else ([], url).

Definition unbalanced_brackets (host : pystr) : bool :=
  xorb (Py.has_char "[" host) (Py.has_char "]" host).

Definition cut_at (c : ascii) (s : pystr) : pystr * pystr :=
  match Py.split_once c s with
  | (a, Some b) => (a, b)
  | (a, None) => (a, [])
  end.

Definition splitparams (url : pystr) : pystr * pystr :=
  match rindex_of "/" url with
  | Some j =>
      match index_of ";" (drop j url) with
      | Some k => (take (j + k) url, drop (S (j + k)) url)
      | None => (url, [])
      end
  | None => cut_at ";" url
  end.

(** [urlparse(url)]; [ValueError] for a host with one bracket only.  The
    validation of the text between two brackets as an IPv6 address is
    not modelled. *)
Definition urlparse (url : pystr) : result ParseResult :=
  let '(sch, rest) := split_scheme (sanitize url) in
  let '(host, rest) := split_netloc rest in
  if unbalanced_brackets host then Raise ValueError
  else
    let '(rest, frag) := cut_at "#" rest in
    let '(rest, qry) := cut_at "?" rest in
    let '(pth, prm) :=
      if bool_decide (sch ∈ uses_params) && Py.has_char ";" rest
      then splitparams rest else (rest, []) in
    Ok {| scheme := sch; netloc := host; path := pth;
          params := prm; query := qry; fragment := frag |}.

End Url.

(** ** Paths and the file system *)

Module Os.

Definition sep : ascii := "/".

(** [os.path.join(a, b)] *)
Definition join (a b : pystr) : pystr :=
  if Py.startswith b [sep] then b
  else if bool_decide (a = []) || Py.endswith a [sep] then a ++ b
  else a ++ sep :: b.

(** [os.path.basename(p)] *)
Definition basename (p : pystr) : pystr := Py.last_piece (Py.split sep p).

(** [os.path.splitext(p)] for a name without separators: cut at the last
    dot unless only dots precede it. *)
Definition splitext (p : pystr) : pystr * pystr :=
  match Url.rindex_of "." p with
  | Some i =>
      if forallb (Py.is_code 46) (take i p) then (p, [])
      else (take i p, drop i p)
  | None => (p, [])
  end.

Inductive node :=
| File (content : pystr)
| Dir.

Definition is_file (n : option node) : bool :=
  match n with
  | Some (File _) => true
  | _ => false
  end.

Definition is_dir (n : option node) : bool :=
  match n with
  | Some Dir => true
  | _ => false
  end.

(** [p] is [d] itself or lies below it. *)
Definition under (d p : pystr) : bool :=
  bool_decide (p = d) || Py.startswith p (d ++ [sep]).

(** The proper ancestors of [p], outermost first: the non-empty prefixes
    of [p] that end just before a separator. *)
Fixpoint ancestors_from (pre : pystr) (p : pystr) : list pystr :=
  match p with
  | [] => []
  | c :: p' =>
      (if Ascii.eqb c sep && negb (bool_decide (pre = [])) then [pre] else [])
        ++ ancestors_from (pre ++ [c]) p'
  end.

Definition ancestors (p : pystr) : list pystr := ancestors_from [] p.

(** [os.path.exists(p)] and [os.path.isdir(p)] *)
Definition exists_ (fs : gmap pystr node) (p : pystr) : bool :=
  bool_decide (is_Some (fs !! p)).
Definition isdir (fs : gmap pystr node) (p : pystr) : bool := is_dir (fs !! p).

(** [os.makedirs(p, exist_ok=True)]: [None] when [p] or one of its
    ancestors is a regular file. *)
Definition makedirs (p : pystr) (fs : gmap pystr node) : option (gmap pystr node) :=
  let dirs := ancestors p ++ [p] in
  if existsb (fun q => is_file (fs !! q)) dirs then None
  else Some (foldr (fun q m => <[q := Dir]> m) fs dirs).

(** The directory that holds [p] is there (a path without ancestors is
    taken relative to an existing directory). *)
Definition parent_ok (fs : gmap pystr node) (p : pystr) : bool :=
  match List.last (map Some (ancestors p)) None with
  | Some d => is_dir (fs !! d)
  | None => true
  end.

(** [open(p, 'wb')] creates or truncates [p]; [None] when [p] is a
    directory or its parent is missing. *)
Definition open_w (p : pystr) (fs : gmap pystr node) : option (gmap pystr node) :=
  if is_dir (fs !! p) || negb (parent_ok fs p) then None
  else Some (<[p := File []]> fs).

(** [f.write(chunk)] on a file opened at [p] *)
Definition append (p chunk : pystr) (fs : gmap pystr node) : gmap pystr node :=
  match fs !! p with
  | Some (File c) => <[p := File (c ++ chunk)]> fs
  | _ => fs
  end.

(** [shutil.rmtree(d)] *)
Definition rmtree (d : pystr) (fs : gmap pystr node) : gmap pystr node :=
  filter (fun kv => under d kv.1 = false) fs.

(** [os.listdir(d)]: the names of the entries directly inside [d]. *)
Definition entry_name (d q : pystr) : option pystr :=
  if Py.startswith q (d ++ [sep]) then
    let name := drop (S (length d)) q in
    if bool_decide (name = []) || Py.has_char sep name then None else Some name
  else None.

Definition listdir (fs : gmap pystr node) (d : pystr) : option (list pystr) :=
  if isdir fs d
  then Some (omap (fun kv => entry_name d kv.1) (map_to_list fs))
  else None.

(** Files of a zip archive unpacked below [d]: parents are created as
    needed. *)
Fixpoint extract_members (d : pystr) (members : list (pystr * pystr))
    (fs : gmap pystr node) : option (gmap pystr node) :=
  match members with
  | [] => Some fs
  | (name, content) :: rest =>
      let target := d ++ sep :: name in
      match List.last (map Some (ancestors target)) None with
      | Some parent =>
          match makedirs parent fs with
          | Some fs1 =>
              match open_w target fs1 with
              | Some fs2 => extract_members d rest (append target content fs2)
              | None => None
              end
          | None => None
          end
      | None => None
      end
  end.

(** [shutil.move(src, dst)]: into [dst] when it is a directory, else onto
    [dst]; the whole tree below [src] moves along. *)
Definition move_target (fs : gmap pystr node) (src dst : pystr) : pystr :=
  if isdir fs dst then join dst (basename (Py.rstrip_by (Ascii.eqb sep) src)) else dst.

Definition rename (src dst : pystr) (fs : gmap pystr node) : gmap pystr node :=
  list_to_map
    (map (fun kv : pystr * node => (dst ++ drop (length src) kv.1, kv.2))
         (map_to_list (filter (fun kv => under src kv.1 = true) fs)))
  ∪ filter (fun kv => under src kv.1 = false) fs.

Definition move (src dst : pystr) (fs : gmap pystr node) : option (gmap pystr node) :=
  match fs !! src with
  | None => None
  | Some _ =>
      let target := move_target fs src dst in
      if isdir fs dst && exists_ fs target then None
      else if negb (parent_ok fs target) then None
      else Some (rename src target fs)
  end.

End Os.

(** ** The world the program runs in *)

Inductive level := DEBUG | INFO | WARNING | ERROR | CRITICAL.

Inductive transcode_op := NormalizeVideo | NormalizeAudio | MergeStreams.

(** Observable effects, recorded in the order in which they happen. *)
Inductive event :=
| EvLog (l : level) (msg : pystr)
| EvHttpGet (url : pystr)
| EvMakedirs (p : pystr)
| EvOpenWrite (p : pystr)
| EvWrite (p chunk : pystr)
| EvProgress (n : nat)
| EvExtract (zip dir : pystr)
| EvTranscode (op : transcode_op) (out : pystr) (ok : bool)
| EvMove (src dst : pystr)
| EvRmtree (p : pystr).

Record world := {
  fs : gmap pystr Os.node;
  requests : nat;
  trace : list event
}.

(** A response as the program reads it: the status, the two headers it
    looks at, the decoded body, and the body as [iter_content] delivers it
    ([stream_ok = false]: the transfer breaks after the listed chunks). *)
Record Response := {
  status_code : Z;
  content_type : option pystr;
  content_length : option pystr;
  text : pystr;
  chunks : list pystr;
  stream_ok : bool
}.

(** [requests.Session]: the cookies set on it. *)
Record Session := {
  cookie_jar : gmap pystr pystr
}.

(** What lies outside the program.  [http s n u] is the answer to a GET of
    [u] sent with session [s] when [n] requests went before it ([None]: the
    request raises); [unzip c] lists the members of the archive with bytes
    [c] ([None]: not a zip archive); [rmtree_ok d] tells whether the
    operating system lets the tree at [d] be removed. *)
Record Env := {
  http : Session -> nat -> pystr -> option Response;
  unzip : pystr -> option (list (pystr * pystr));
  rmtree_ok : pystr -> bool
}.

(** Modelled from the spec: [detector.config.QualityProfile], an
    enumeration of encoding presets; the program only passes its members
    on, so a member is represented by its name. *)
Definition QualityProfile := pystr.

(** [ffmpeg_handler.NormalizedMedia], built by keyword in the program *)
Record NormalizedMedia := {
  video_path : pystr;
  audio_path : pystr
}.

(** Modelled from the spec: [ffmpeg_handler.FFmpegHandler], the transcoding
    collaborator.  Each operation reads the file system, reports success
    or failure only, and writes nothing but the output path it is given:
    the second component is what it leaves there, if anything. *)
Record FFmpegHandler := {
  normalize_video_stream :
    list pystr -> pystr -> QualityProfile -> gmap pystr Os.node -> bool * option pystr;
  normalize_audio_stream :
    list pystr -> pystr -> gmap pystr Os.node -> bool * option pystr;
  merge_normalized_streams :
    NormalizedMedia -> pystr -> QualityProfile -> gmap pystr Os.node -> bool * option pystr
}.

(** Modelled from the spec: [file_operations.CrossPlatformFileOps], the
    path-safety helpers, with the [cookies] attribute that [main] sets. *)
Record FileOps := {
  safe_filename : pystr -> pystr;
  get_main_download_dir : pystr;
  cookies : option pystr
}.

(** ** The effect monad: state, plus exceptions that keep the state *)

Definition M (A : Type) : Type := world -> result A * world.

Definition ret {A} (a : A) : M A := fun w => (Ok a, w).

Definition bind {A B} (m : M A) (k : A -> M B) : M B :=
  fun w =>
    match m w with
    | (Ok a, w') => k a w'
    | (Raise e, w') => (Raise e, w')
    end.

Definition raise {A} (e : exn) : M A := fun w => (Raise e, w).

(** [try: m  except <class>: h] *)
Definition catch {A} (caught : exn -> bool) (m : M A) (h : exn -> M A) : M A :=
  fun w =>
    match m w with
    | (Raise e, w') => if caught e then h e w' else (Raise e, w')
    | r => r
    end.

Definition any_exception (e : exn) : bool := true.

Declare Scope prog_scope.
Delimit Scope prog_scope with prog.
Notation "x <- m ;; k" := (bind m (fun x => k))
  (at level 100, m at next level, right associativity) : prog_scope.
Notation "m ;;; k" := (bind m (fun _ => k))
  (at level 100, right associativity) : prog_scope.
Open Scope prog_scope.

Definition emit (e : event) : M unit :=
  fun w => (Ok tt, {| fs := fs w; requests := requests w; trace := trace w ++ [e] |}).

Definition get_fs : M (gmap pystr Os.node) := fun w => (Ok (fs w), w).

Definition put_fs (m : gmap pystr Os.node) : M unit :=
  fun w => (Ok tt, {| fs := m; requests := requests w; trace := trace w |}).

Definition log (l : level) (msg : pystr) : M unit := emit (EvLog l msg).

(** An operation of the file system that fails with [OSError]. *)
Definition os_update (f : gmap pystr Os.node -> option (gmap pystr Os.node)) : M unit :=
  m <- get_fs ;;
  match f m with
  | Some m' => put_fs m'
  | None => raise OSError
  end.

Section Downloader.

Variable E : Env.

(** [session.get(url, ...)] *)
Definition session_get (session : Session) (url : pystr) : M Response :=
  fun w =>
    let w' := {| fs := fs w; requests := S (requests w);
                 trace := trace w ++ [EvHttpGet url] |} in
    match http E session (requests w) url with
    | Some r => (Ok r, w')
    | None => (Raise RequestException, w')
    end.

(** [response.raise_for_status()] *)
Definition raise_for_status (r : Response) : M unit :=
  if ((400 <=? status_code r) && (status_code r <? 600))%Z
  then raise HTTPError else ret tt.

(** One run of a transcoding operation: what it leaves at [out], and its
    verdict. *)
Definition transcode (op : transcode_op) (out : pystr)
    (run : gmap pystr Os.node -> bool * option pystr) : M bool :=
  m <- get_fs ;;
  let '(ok, written) := run m in
  match written with
  | Some c => put_fs (<[out := Os.File c]> m)
  | None => ret tt
  end ;;;
  emit (EvTranscode op out ok) ;;;
  ret ok.

(** *** [setup_session] *)

Fixpoint set_cookies (pieces : list pystr) (jar : gmap pystr pystr) : gmap pystr pystr :=
  match pieces with
  | [] => jar
  | cookie :: rest =>
      if Py.has_char "=" cookie then
        match Py.split_once "=" (Py.strip cookie) with
        | (name, Some value) =>
            set_cookies rest (<[Py.strip name := Py.strip value]> jar)
        | (_, None) => set_cookies rest jar
        end
      else set_cookies rest jar
  end.

Definition setup_session (cookie_str : option pystr) : M Session :=
  match cookie_str with
  | None | Some [] => ret {| cookie_jar := ∅ |}
  | Some c =>
      m <- get_fs ;;
      cookie_text <-
        match m !! c with
        | Some (Os.File content) => ret (Py.strip content)
        | Some Os.Dir => raise OSError
        | None => ret c
        end ;;
      ret {| cookie_jar := set_cookies (Py.split ";" cookie_text) ∅ |}
  end.

(** *** [get_id_and_type] *)

Definition patterns : list Re.regex :=
  [ Re.One (Re.Lit Re.dquote) :: Re.lits (str "sco-id")
      ++ [Re.One (Re.Lit Re.dquote); Re.spaces; Re.One (Re.Lit ":"); Re.spaces;
          Re.One (Re.Lit Re.dquote); Re.digits_group; Re.One (Re.Lit Re.dquote)];
    Re.lits (str "sco-id=") ++ [Re.digits_group];
    Re.lits (str "recording-id=") ++ [Re.digits_group];
    Re.lits (str "scoid:") ++ [Re.digits_group] ].

(** The [for p in patterns] loop: the capture of the first pattern that
    is found in the text. *)
Fixpoint first_match (ps : list Re.regex) (body : pystr) : option pystr :=
  match ps with
  | [] => None
  | p :: ps' =>
      match Re.re_search true p body with
      | Some found_id => Some found_id
      | None => first_match ps' body
      end
  end.

Definition path_id_char (c : ascii) : bool :=
  Py.is_ascii_alnum c || Py.is_code 95 c || Py.is_code 45 c.

Definition path_pattern : Re.regex := [Re.Rep true 1 (Re.Cls path_id_char); Re.Eos].

Definition lift {A} (r : result A) : M A := fun w => (r, w).

Definition get_id_and_type (meeting_url : pystr) (session : Session)
    : M (option (pystr * pystr)) :=
  log INFO (str "Analyzing URL: " ++ meeting_url) ;;;
  found <-
    catch any_exception
      (response <- session_get session meeting_url ;;
       raise_for_status response ;;;
       match first_match patterns (text response) with
       | Some found_id =>
           log INFO (str "Found SCO-ID: " ++ found_id) ;;;
           ret (Some found_id)
       | None => ret None
       end)
      (fun e => log WARNING (str "Initial analysis issue") ;;; ret None) ;;
  match found with
  | Some found_id => ret (Some (found_id, str "sco-id"))
  | None =>
      parsed <- lift (Url.urlparse meeting_url) ;;
      let path_part := Py.strip_char "/" (Url.path parsed) in
      match Re.re_search false path_pattern (Py.first_piece (Py.split "?" path_part)) with
      | Some found_id =>
          log INFO (str "Using Path ID: " ++ found_id) ;;;
          ret (Some (found_id, str "path-id"))
      | None => ret None
      end
  end.

(** *** [get_account_id] *)

Definition account_pattern : Re.regex :=
  Re.lits (str "account_id") ++ [Re.spaces; Re.One (Re.Lit "="); Re.spaces; Re.digits_group].

Definition get_account_id (meeting_url : pystr) (session : Session) : M (option pystr) :=
  catch any_exception
    (response <- session_get session meeting_url ;;
     ret (Re.re_search false account_pattern (text response)))
    (fun e => ret None).

(** *** [construct_zip_urls] *)

(** [list(dict.fromkeys(urls))]: a key seen before keeps its place. *)
Definition dict_fromkeys (urls : list pystr) : list pystr :=
  fold_left (fun d k => if bool_decide (k ∈ d) then d else d ++ [k]) urls [].

Definition zip_suffix : pystr := str "?download=zip".

Definition candidate_urls (base recording_id : pystr) (account_id : option pystr)
    : list pystr :=
  [ base ++ str "/" ++ recording_id ++ str "/output/" ++ recording_id ++ str ".zip" ++ zip_suffix;
    base ++ str "/" ++ recording_id ++ str "/output/output.zip" ++ zip_suffix;
    base ++ str "/p" ++ recording_id ++ str "/output/" ++ recording_id ++ str ".zip" ++ zip_suffix;
    base ++ str "/p" ++ recording_id ++ str "/output/output.zip" ++ zip_suffix ]
  ++ match account_id with
     | Some (c :: a) =>
         let account_id := c :: a in
         [ base ++ str "/content/" ++ account_id ++ str "/" ++ recording_id ++ str "-1/output/"
             ++ recording_id ++ str "-1.zip" ++ zip_suffix;
           base ++ str "/content/" ++ account_id ++ str "/" ++ recording_id
             ++ str "-1/output/output.zip" ++ zip_suffix ]
     | _ => []
     end.

Definition construct_zip_urls (meeting_url recording_id id_type : pystr)
    (session : Session) : M (list pystr) :=
  parsed_url <- lift (Url.urlparse meeting_url) ;;
  let base := Url.scheme parsed_url ++ str "://" ++ Url.netloc parsed_url in
  account_id <- get_account_id meeting_url session ;;
  ret (dict_fromkeys (candidate_urls base recording_id account_id)).

(** *** [download_zip_file] *)

Fixpoint write_chunks (output_path : pystr) (cs : list pystr) : M unit :=
  match cs with
  | [] => ret tt
  | chunk :: rest =>
      m <- get_fs ;;
      put_fs (Os.append output_path chunk m) ;;;
      emit (EvWrite output_path chunk) ;;;
      emit (EvProgress (length chunk)) ;;;
      write_chunks output_path rest
  end.

Definition download_zip_file (zip_url output_path : pystr) (session : Session) : M bool :=
  catch any_exception
    (r <- session_get session zip_url ;;
     if negb (status_code r =? 200)%Z then ret false
     else
       let content_type := Py.lower (default [] (content_type r)) in
       if Py.contains content_type (str "html") then
         log WARNING
           (str "Url returned HTML instead of ZIP. Likely login required or wrong link.") ;;;
         ret false
       else
         total_size <-
           match content_length r with
           | None => ret 0%Z
           | Some h =>
               match Py.int h with
               | Some n => ret n
               | None => raise ValueError
               end
           end ;;
         os_update (Os.open_w output_path) ;;;
         emit (EvOpenWrite output_path) ;;;
         write_chunks output_path (chunks r) ;;;
         (if stream_ok r then ret tt else raise RequestException) ;;;
         ret true)
    (fun e => log ERROR (str "Error downloading " ++ zip_url) ;;; ret false).

(** *** [find_media_streams] *)

(** [streams[key].append(v)] on a [defaultdict(list)], which keeps its
    keys in insertion order *)
Fixpoint dict_append (key v : pystr) (streams : list (pystr * list pystr))
    : list (pystr * list pystr) :=
  match streams with
  | [] => [(key, [v])]
  | (k, vs) :: rest =>
      if bool_decide (k = key) then (k, vs ++ [v]) :: rest
      else (k, vs) :: dict_append key v rest
  end.

(** [streams.get(key)] *)
Fixpoint dict_get (key : pystr) (streams : list (pystr * list pystr)) : option (list pystr) :=
  match streams with
  | [] => None
  | (k, vs) :: rest => if bool_decide (k = key) then Some vs else dict_get key rest
  end.

Definition stream_pattern : Re.regex :=
  [Re.Rep true 1 (Re.Cls Py.is_ascii_alnum); Re.One (Re.Lit "_")].

Fixpoint scan_streams (extract_folder : pystr) (listing : list pystr)
    (streams : list (pystr * list pystr)) : list (pystr * list pystr) :=
  match listing with
  | [] => streams
  | filename :: rest =>
      scan_streams extract_folder rest
        (if Py.endswith (Py.lower filename) (str ".flv") then
           match Re.re_match false stream_pattern filename with
           | Some prefix =>
               dict_append (Py.lower prefix) (Os.join extract_folder filename) streams
           | None => streams
           end
         else streams)
  end.

(** The [sort_key] lambda: the number after the last underscore of the
    name without its extension, or 0 when that piece is not made of
    digits.  [Raise ValueError] when [isdigit] accepts what [int]
    rejects. *)
Definition sort_key (f : pystr) : result Z :=
  let piece := Py.last_piece (Py.split "_" (Os.splitext (Os.basename f)).1) in
  if Py.isdigit piece then
    match Py.int piece with
    | Some n => Ok n
    | None => Raise ValueError
    end
  else Ok 0%Z.

(** [sorted(l, key=sort_key)]: the keys are computed first, then the
    list is sorted stably on them. *)
Fixpoint keyed (l : list pystr) : result (list (Z * pystr)) :=
  match l with
  | [] => Ok []
  | f :: rest =>
      match sort_key f, keyed rest with
      | Ok k, Ok krest => Ok ((k, f) :: krest)
      | Raise e, _ => Raise e
      | _, Raise e => Raise e
      end
  end.

Fixpoint insert_sorted (x : Z * pystr) (l : list (Z * pystr)) : list (Z * pystr) :=
  match l with
  | [] => [x]
  | y :: l' => if (y.1 <=? x.1)%Z then y :: insert_sorted x l' else x :: y :: l'
  end.

Definition stable_sort (l : list (Z * pystr)) : list (Z * pystr) :=
  fold_left (fun acc x => insert_sorted x acc) l [].

Definition sorted (l : list pystr) : result (list pystr) :=
  match keyed l with
  | Ok kl => Ok (map snd (stable_sort kl))
  | Raise e => Raise e
  end.

Fixpoint sort_streams (streams : list (pystr * list pystr))
    : result (list (pystr * list pystr)) :=
  match streams with
  | [] => Ok []
  | (stream_name, files) :: rest =>
      match sorted files with
      | Ok files' =>
          match sort_streams rest with
          | Ok rest' => Ok ((stream_name, files') :: rest')
          | Raise e => Raise e
          end
      | Raise e => Raise e
      end
  end.

(** The classification of a directory listing, without the effects. *)
Definition classify (extract_folder : pystr) (listing : list pystr)
    : result (list (pystr * list pystr)) :=
  sort_streams (scan_streams extract_folder listing []).

Definition find_media_streams (extract_folder : pystr) : M (list (pystr * list pystr)) :=
  log INFO (str "Scanning directory for media streams...") ;;;
  m <- get_fs ;;
  listing <-
    match Os.listdir m extract_folder with
    | Some l => ret l
    | None => raise FileNotFoundError
    end ;;
  streams <- lift (classify extract_folder listing) ;;
  match dict_get (str "cameravoip") streams with
  | None | Some [] =>
      log WARNING
        (str "No separate camera/audio stream found. Audio will be extracted from the screenshare stream.")
  | Some _ => ret tt
  end ;;;
  ret streams.

(** *** [cleanup_temp_directory] *)

Definition cleanup_temp_directory (dir_path : pystr) : M unit :=
  log DEBUG (str "Cleaning up temporary directory: " ++ dir_path) ;;;
  m <- get_fs ;;
  if Os.isdir m dir_path then
    catch is_OSError
      (emit (EvRmtree dir_path) ;;;
       (if rmtree_ok E dir_path then put_fs (Os.rmtree dir_path m) else raise OSError) ;;;
       log DEBUG (str "Removed temp directory: " ++ dir_path))
      (fun e => log WARNING (str "Could not clean up temp directory"))
  else ret tt.

End Downloader.

Section Orchestrator.

Variable E : Env.

(** *** [process_single_url] *)

(** The [for zip_url in zip_urls] loop, left at the first download that
    succeeds; the result is the [success] flag. *)
Fixpoint try_zip_urls (zip_urls : list pystr) (zip_path : pystr) (session : Session)
    : M bool :=
  match zip_urls with
  | [] => ret false
  | zip_url :: rest =>
      log INFO (str "Trying download from: " ++ zip_url) ;;;
      ok <- download_zip_file E zip_url zip_path session ;;
      if ok then ret true else try_zip_urls rest zip_path session
  end.

(** [with zipfile.ZipFile(zip_path, 'r') as zip_ref:
    zip_ref.extractall(temp_output_dir)] *)
Definition extractall (zip_path temp_output_dir : pystr) : M unit :=
  m <- get_fs ;;
  match m !! zip_path with
  | Some (Os.File bytes) =>
      match unzip E bytes with
      | Some members =>
          emit (EvExtract zip_path temp_output_dir) ;;;
          os_update (Os.extract_members temp_output_dir members)
      | None => raise BadZipFile
      end
  | Some Os.Dir => raise OSError
  | None => raise FileNotFoundError
  end.

(** "Download and Extract": [false] when the job has ended in failure. *)
Definition download_and_extract (url recording_id id_type : pystr) (session : Session)
    (temp_output_dir zip_path : pystr) : M bool :=
  m <- get_fs ;;
  if negb (Os.exists_ m zip_path) then
    zip_urls <- construct_zip_urls E url recording_id id_type session ;;
    success <- try_zip_urls zip_urls zip_path session ;;
    if negb success then
      cleanup_temp_directory E temp_output_dir ;;;
      ret false
    else
      log INFO (str "Extracting '" ++ Os.basename zip_path ++ str "'...") ;;;
      catch is_BadZipFile
        (extractall zip_path temp_output_dir ;;; ret true)
        (fun e =>
           log CRITICAL (str "Downloaded file is not a valid zip archive.") ;;;
           cleanup_temp_directory E temp_output_dir ;;;
           ret false)
  else
    log WARNING (str "ZIP file already exists. Skipping download and extraction.") ;;;
    ret true.

(** "Two-Pass Workflow": classification, the two normalization passes,
    the merge and the final move. *)
Definition two_pass_workflow (ffmpeg_handler : FFmpegHandler) (quality : QualityProfile)
    (temp_output_dir final_video_path_temp final_video_path_dest : pystr) : M bool :=
  media_streams <- find_media_streams temp_output_dir ;;
  match dict_get (str "screenshare") media_streams with
  | None =>
      log CRITICAL (str "CRITICAL: 'screenshare' stream is missing. Cannot proceed.") ;;;
      cleanup_temp_directory E temp_output_dir ;;;
      ret false
  | Some video_files =>
      let normalized_media :=
        {| video_path := Os.join temp_output_dir (str "normalized_video.mkv");
           audio_path := Os.join temp_output_dir (str "normalized_audio.m4a") |} in
      ok_video <-
        transcode NormalizeVideo (video_path normalized_media)
          (normalize_video_stream ffmpeg_handler video_files
             (video_path normalized_media) quality) ;;
      if negb ok_video then
        log CRITICAL (str "Failed during video normalization pass.") ;;;
        cleanup_temp_directory E temp_output_dir ;;;
        ret false
      else
        let audio_files :=
          default video_files (dict_get (str "cameravoip") media_streams) in
        ok_audio <-
          transcode NormalizeAudio (audio_path normalized_media)
            (normalize_audio_stream ffmpeg_handler audio_files
               (audio_path normalized_media)) ;;
        if negb ok_audio then
          log CRITICAL (str "Failed during audio normalization pass.") ;;;
          cleanup_temp_directory E temp_output_dir ;;;
          ret false
        else
          ok_merge <-
            transcode MergeStreams final_video_path_temp
              (merge_normalized_streams ffmpeg_handler normalized_media
                 final_video_path_temp quality) ;;
          if ok_merge then
            log INFO (str "Moving final video to main download directory...") ;;;
            emit (EvMove final_video_path_temp final_video_path_dest) ;;;
            os_update (Os.move final_video_path_temp final_video_path_dest) ;;;
            log INFO (str "Success! Video saved to: " ++ final_video_path_dest) ;;;
            cleanup_temp_directory E temp_output_dir ;;;
            ret true
          else
            log CRITICAL (str "Failed to create the final video file after all attempts.") ;;;
            cleanup_temp_directory E temp_output_dir ;;;
            ret false
  end.

(** The paths a job works with, all derived from the recording
    identifier. *)
Definition temp_output_dir_of (file_ops : FileOps) (recording_id : pystr) : pystr :=
  Os.join (get_main_download_dir file_ops)
          (str "adobe_connect_" ++ safe_filename file_ops recording_id).

Definition zip_path_of (file_ops : FileOps) (recording_id : pystr) : pystr :=
  Os.join (temp_output_dir_of file_ops recording_id)
          (safe_filename file_ops recording_id ++ str ".zip").

Definition output_filename_of (file_ops : FileOps) (custom_filename : option pystr)
    (recording_id : pystr) : pystr :=
  let output_filename :=
    match custom_filename with
    | Some (c :: name) => c :: name
    | _ => str "recording_" ++ safe_filename file_ops recording_id ++ str ".mp4"
    end in
  if negb (Py.endswith (Py.lower output_filename) (str ".mp4"))
  then output_filename ++ str ".mp4" else output_filename.

Definition final_video_path_temp_of (file_ops : FileOps) (custom_filename : option pystr)
    (recording_id : pystr) : pystr :=
  Os.join (temp_output_dir_of file_ops recording_id)
          (safe_filename file_ops (output_filename_of file_ops custom_filename recording_id)).

Definition final_video_path_dest_of (file_ops : FileOps) (custom_filename : option pystr)
    (recording_id : pystr) : pystr :=
  Os.join (get_main_download_dir file_ops)
          (safe_filename file_ops (output_filename_of file_ops custom_filename recording_id)).

Definition process_single_url (url : pystr) (custom_filename : option pystr)
    (file_ops : FileOps) (ffmpeg_handler : FFmpegHandler) (quality : QualityProfile)
    : M bool :=
  log INFO (str "--- Processing URL: " ++ url ++ str " ---") ;;;
  session <- setup_session (cookies file_ops) ;;
  resolved <- get_id_and_type E url session ;;
  match resolved with
  | None | Some ([], _) =>
      log ERROR (str "Could not get a valid recording ID for " ++ url ++ str ". Skipping.") ;;;
      ret false
  | Some (recording_id, id_type) =>
      let temp_output_dir := temp_output_dir_of file_ops recording_id in
      emit (EvMakedirs temp_output_dir) ;;;
      os_update (Os.makedirs temp_output_dir) ;;;
      let zip_path := zip_path_of file_ops recording_id in
      let output_filename := output_filename_of file_ops custom_filename recording_id in
      let final_video_path_temp :=
        final_video_path_temp_of file_ops custom_filename recording_id in
      let final_video_path_dest :=
        final_video_path_dest_of file_ops custom_filename recording_id in
      log INFO (str "Final video will be named: '" ++ output_filename ++ str "'") ;;;
      m <- get_fs ;;
      if Os.exists_ m final_video_path_dest then
        log WARNING
          (str "Output file '" ++ output_filename
             ++ str "' already exists in the destination. Skipping.") ;;;
        cleanup_temp_directory E temp_output_dir ;;;
        ret true
      else
        continue <-
          download_and_extract url recording_id id_type session temp_output_dir zip_path ;;
        if continue then
          two_pass_workflow ffmpeg_handler quality temp_output_dir
            final_video_path_temp final_video_path_dest
        else ret false
  end.

(** *** [main] *)

(** The parsed command line: the parser defines the positional [url] and
    the options [--output], [--cookies] and [--quality]. *)
Record Args := {
  arg_url : pystr;
  arg_output : option pystr;
  arg_cookies : option pystr;
  arg_quality : pystr
}.

(** The status with which the interpreter ends: 0 when [main] returns,
    the argument of [sys.exit], 1 when an exception is not caught. *)
Definition exit_status {A} (r : result (A + Z)) : Z :=
  match r with
  | Ok (inl _) => 0
  | Ok (inr code) => code
  | Raise _ => 1
  end%Z.

(** [main] after [parse_args]: [new_file_ops] is what
    [CrossPlatformFileOps()] builds and [new_ffmpeg_handler] what
    [FFmpegHandler()] builds, [None] when it raises [FileNotFoundError].
    The namespace has no attribute [file], so the [elif args.file] test
    raises [AttributeError] and the batch loop after it is never
    entered. *)
Definition main (args : Args) (new_file_ops : FileOps)
    (new_ffmpeg_handler : option FFmpegHandler) : M (unit + Z) :=
  log INFO (str "--- Adobe Downloader v17.0 (Batch Mode Edition) ---") ;;;
  let quality : QualityProfile := arg_quality args in
  let file_ops :=
    {| safe_filename := safe_filename new_file_ops;
       get_main_download_dir := get_main_download_dir new_file_ops;
       cookies := arg_cookies args |} in
  match new_ffmpeg_handler with
  | None =>
      log CRITICAL (str "FATAL ERROR: ffmpeg not found") ;;;
      log CRITICAL
        (str "Please ensure FFmpeg is installed and accessible in your system's PATH.") ;;;
      ret (inr 1%Z)
  | Some ffmpeg_handler =>
      match arg_url args with
      | _ :: _ =>
          process_single_url (arg_url args) (arg_output args) file_ops ffmpeg_handler quality ;;;
          ret (inl tt)
      | [] => raise AttributeError
      end
  end.

(** The exit status of the program and the world it leaves. *)
Definition run_main (args : Args) (new_file_ops : FileOps)
    (new_ffmpeg_handler : option FFmpegHandler) (w : world) : Z * world :=
  let '(r, w') := main args new_file_ops new_ffmpeg_handler w in
  (exit_status r, w').

End Orchestrator.

(** ** Vocabulary of the statements *)

(** The pattern has no capturing group. *)
Fixpoint no_capture (r : Re.regex) : bool :=
  match r with
  | [] => true
  | Re.Rep true _ _ :: _ => false
  | _ :: r' => no_capture r'
  end.

(** The page body the resolver gets to see: none when the request raises
    or [raise_for_status] rejects the status. *)
Definition fetched_body (E : Env) (session : Session) (n : nat) (url : pystr)
    : option pystr :=
  match http E session n url with
  | Some r =>
      if ((400 <=? status_code r) && (status_code r <? 600))%Z then None
      else Some (text r)
  | None => None
  end.


(** The account identifier that the probe of [get_account_id] finds when
    it is request number [n]. *)
Definition discovered_account (E : Env) (session : Session) (n : nat) (url : pystr)
    : option pystr :=
  match http E session n url with
  | Some r => Re.re_search false account_pattern (text r)
  | None => None
  end.

(** [scheme://host] of a parsed URL *)
Definition base_of (parsed : Url.ParseResult) : pystr :=
  Url.scheme parsed ++ str "://" ++ Url.netloc parsed.

(** The key under which a file is sorted (0 where [sort_key] raises). *)
Definition key_of (f : pystr) : Z :=
  match sort_key f with
  | Ok k => k
  | Raise _ => 0%Z
  end.

(** The piece of a file name that [sort_key] reads as the sequence
    number. *)
Definition sequence_piece (f : pystr) : pystr :=
  Py.last_piece (Py.split "_" (Os.splitext (Os.basename f)).1).

Definition key_le (a b : Z * pystr) : Prop := (a.1 <= b.1)%Z.

(** ** Vocabulary for runs of a job *)

(** The content of the regular file at [p], if there is one. *)
Definition file_at (m : gmap pystr Os.node) (p : pystr) : option pystr :=
  match m !! p with
  | Some (Os.File c) => Some c
  | _ => None
  end.

(** Outside the tree at [d], [m'] has the same regular files with the same
    contents as [m]. *)
Definition frame (d : pystr) (m m' : gmap pystr Os.node) : Prop :=
  forall p, Os.under d p = false -> file_at m' p = file_at m p.

Definition is_move (e : event) : bool :=
  match e with
  | EvMove _ _ => true
  | _ => false
  end.

Definition is_transcode (e : event) : bool :=
  match e with
  | EvTranscode _ _ _ => true
  | _ => false
  end.

(** Events that neither run the transcoder nor move a file. *)
Definition quiet_event (e : event) : bool := negb (is_move e || is_transcode e).

(** Log records and progress reports are bookkeeping; everything else
    touches the network, the file system or the transcoder. *)
Definition is_effect (e : event) : bool :=
  match e with
  | EvLog _ _ | EvProgress _ => false
  | _ => true
  end.

Definition effects (evs : list event) : list event := List.filter is_effect evs.

Definition is_http_get (e : event) : bool :=
  match e with
  | EvHttpGet _ => true
  | _ => false
  end.

(** A step from [w] to [w'] that only appends quiet events and leaves the
    files outside [d] alone. *)
Definition quiet_step (d : pystr) (w w' : world) : Prop :=
  exists evs,
    trace w' = trace w ++ evs
    /\ Forall (fun e => quiet_event e = true) evs
    /\ frame d (fs w) (fs w').

Definition Quiet (d : pystr) {A} (m : M A) : Prop :=
  forall w, quiet_step d w (m w).2.

(** What a run has done so far about the final placement. *)
Record progress := {
  video_done : bool;
  audio_done : bool;
  merge_done : bool;
  moved : bool
}.

Definition no_progress : progress :=
  {| video_done := false; audio_done := false; merge_done := false; moved := false |}.

(** One event seen by an observer that rejects ([None]) a move made before
    the three passes have succeeded. *)
Definition observe (st : progress) (e : event) : option progress :=
  match e with
  | EvTranscode NormalizeVideo _ true =>
      Some {| video_done := true; audio_done := audio_done st;
              merge_done := merge_done st; moved := moved st |}
  | EvTranscode NormalizeAudio _ true =>
      Some {| video_done := video_done st; audio_done := true;
              merge_done := merge_done st; moved := moved st |}
  | EvTranscode MergeStreams _ true =>
      Some {| video_done := video_done st; audio_done := audio_done st;
              merge_done := true; moved := moved st |}
  | EvMove _ _ =>
      if video_done st && audio_done st && merge_done st
      then Some {| video_done := true; audio_done := true; merge_done := true;
                   moved := true |}
      else None
  | _ => Some st
  end.

Fixpoint observe_all (st : progress) (evs : list event) : option progress :=
  match evs with
  | [] => Some st
  | e :: rest =>
      match observe st e with
      | Some st' => observe_all st' rest
      | None => None
      end
  end.

(** From [w] the run has reached [w1] with observer state [st]; as long as
    nothing was moved, the files outside [d] are as they were. *)
Definition reached (d : pystr) (w w1 : world) (st : progress) : Prop :=
  exists evs,
    trace w1 = trace w ++ evs
    /\ observe_all no_progress evs = Some st
    /\ (moved st = false -> frame d (fs w) (fs w1)).

(** The file-name helper never yields a path separator. *)
Definition safe_names (file_ops : FileOps) : Prop :=
  forall s, Py.has_char "/" (safe_filename file_ops s) = false.

(** A response whose declared content type mentions HTML. *)
Definition is_html (r : Response) : bool :=
  Py.contains (Py.lower (default [] (content_type r))) (str "html").

(** The [content-length] header is absent or an integer. *)
Definition length_header_ok (r : Response) : bool :=
  match content_length r with
  | None => true
  | Some h => bool_decide (is_Some (Py.int h))
  end.

(** The verdict on a run from [w] that ended with result and world [rw]:
    the observer accepted every event, a run that reports failure has moved
    nothing, and a run that has moved nothing has left the files outside
    [d] alone. *)
Definition outcome (d : pystr) (w : world) (rw : result bool * world) : Prop :=
  exists st, reached d w rw.2 st /\ (rw.1 = Ok false -> moved st = false).

(** The observer state after a transcoding pass. *)
Definition after_pass (op : transcode_op) (ok : bool) (st : progress) : progress :=
  match observe st (EvTranscode op [] ok) with
  | Some st' => st'
  | None => st
  end.

(** The events of streaming the chunks [cs] into the file at [p]. *)
Definition chunk_events (p : pystr) (cs : list pystr) : list event :=
  flat_map (fun c => [EvWrite p c; EvProgress (length c)]) cs.

(** What is logged when a candidate is turned down for its content type:
    the warning is only reached when the status was 200. *)
Definition rejection_log (r : Response) : list event :=
  if (status_code r =? 200)%Z
  then [EvLog WARNING
          (str "Url returned HTML instead of ZIP. Likely login required or wrong link.")]
  else [].

(** [w] after one more log record. *)
Definition logged (l : level) (msg : pystr) (w : world) : world :=
  {| fs := fs w; requests := requests w; trace := trace w ++ [EvLog l msg] |}.

Definition is_extract (e : event) : bool :=
  match e with
  | EvExtract _ _ => true
  | _ => false
  end.

(** The file-operations object that [main] hands to the job: the fresh one
    with the [cookies] attribute set from the command line. *)
Definition with_cookies (file_ops : FileOps) (c : option pystr) : FileOps :=
  {| safe_filename := safe_filename file_ops;
     get_main_download_dir := get_main_download_dir file_ops;
     cookies := c |}.

Definition banner : pystr := str "--- Adobe Downloader v17.0 (Batch Mode Edition) ---".


(** ** Vocabulary of the further properties *)

(** [m] never changes the observation [f] of the world. *)
Definition Preserves {X A} (f : world -> X) (m : M A) : Prop :=
  forall w, f (m w).2 = f w.

(** The answer to request number [n] makes [download_zip_file] give up
    before the output file is opened: the request raises, the status is
    not 200, the content type mentions HTML, or the [content-length]
    header is not an integer. *)
Definition turned_down (E : Env) (session : Session) (n : nat) (url : pystr) : bool :=
  match http E session n url with
  | Some r => negb (status_code r =? 200)%Z || is_html r || negb (length_header_ok r)
  | None => true
  end.

(** [open(p, 'wb')] succeeds on the file system [m]: [p] is not a
    directory and the directory that holds it is there. *)
Definition writable (m : gmap pystr Os.node) (p : pystr) : bool :=
  bool_decide (is_Some (Os.open_w p m)).

(** A character that may stand in a cookie name, and in a cookie value,
    without being taken for a separator: the value may hold [=]. *)
Definition cookie_name_char (c : ascii) : bool :=
  negb (Py.is_space c) && negb (Ascii.eqb c ";") && negb (Ascii.eqb c "=").

Definition cookie_value_char (c : ascii) : bool :=
  negb (Py.is_space c) && negb (Ascii.eqb c ";").


(** [path] is the place of a listed file that the scan puts into the
    group [key]: the name ends in [.flv] in any case, and [key] is the
    lower-cased token that [([a-zA-Z0-9]+)_] captures at its start. *)
Definition grouped (extract_folder : pystr) (listing : list pystr) (key path : pystr)
    : Prop :=
  exists filename prefix,
    filename ∈ listing
    /\ Py.endswith (Py.lower filename) (str ".flv") = true
    /\ Re.re_match false stream_pattern filename = Some prefix
    /\ key = Py.lower prefix
    /\ path = Os.join extract_folder filename.
(** ** Concrete scenarios

    A recording page that carries the identifier 12345 and the account 7,
    a server whose first two archive candidates answer with a login page
    and whose third delivers the archive, and a few file systems. *)

Module Scenario.

Definition meeting_url : pystr := str "https://my.adobeconnect.com/p123abc/".

Definition page : Response :=
  {| status_code := 200;
     content_type := Some (str "text/html");
     content_length := None;
     text := str "<html>var x = 'sco-id=12345'; account_id = 7;</html>";
     chunks := [];
     stream_ok := true |}.

Definition login_page : Response :=
  {| status_code := 200;
     content_type := Some (str "text/HTML; charset=utf-8");
     content_length := None;
     text := str "<html>please log in</html>";
     chunks := [str "<html>please log in</html>"];
     stream_ok := true |}.

Definition archive : Response :=
  {| status_code := 200;
     content_type := Some (str "application/zip");
     content_length := Some (str "6");
     text := [];
     chunks := [str "PK"; str "data"];
     stream_ok := true |}.

Definition members : list (pystr * pystr) :=
  [ (str "screenshare_1.flv", str "v1"); (str "screenshare_10.flv", str "v10");
    (str "screenshare_2.flv", str "v2"); (str "cameravoip_1.flv", str "a1") ].

(** Requests 0 and 1 are the two page probes, 2 and 3 meet the login
    page, 4 gets the archive. *)
Definition env : Env :=
  {| http := fun _ n _ =>
       match n with
       | 0 | 1 => Some page
       | 2 | 3 => Some login_page
       | 4 => Some archive
       | _ => None
       end;
     unzip := fun bytes => if bool_decide (bytes = str "PKdata") then Some members else None;
     rmtree_ok := fun _ => true |}.

(** The same server with another account on the page. *)
Definition page_other_account : Response :=
  {| status_code := 200;
     content_type := Some (str "text/html");
     content_length := None;
     text := str "<html>var x = 'sco-id=12345'; account_id = 8;</html>";
     chunks := [];
     stream_ok := true |}.

Definition env_other_account : Env :=
  {| http := fun _ _ _ => Some page_other_account;
     unzip := unzip env;
     rmtree_ok := rmtree_ok env |}.

(** A server that does not answer at all. *)
Definition env_offline : Env :=
  {| http := fun _ _ _ => None;
     unzip := fun _ => None;
     rmtree_ok := fun _ => true |}.

Definition file_ops : FileOps :=
  {| safe_filename :=
       map (fun c => if Ascii.eqb c "/" then "_"%char else c);
     get_main_download_dir := str "/dl";
     cookies := None |}.

(** A transcoder that always succeeds, and one whose video pass fails. *)
Definition ffmpeg_handler : FFmpegHandler :=
  {| normalize_video_stream := fun _ _ _ _ => (true, Some (str "video"));
     normalize_audio_stream := fun _ _ _ => (true, Some (str "audio"));
     merge_normalized_streams := fun _ _ _ _ => (true, Some (str "movie")) |}.

Definition ffmpeg_handler_failing : FFmpegHandler :=
  {| normalize_video_stream := fun _ _ _ _ => (false, Some (str "vid"));
     normalize_audio_stream := fun _ _ _ => (true, Some (str "audio"));
     merge_normalized_streams := fun _ _ _ _ => (true, Some (str "movie")) |}.

Definition quality : QualityProfile := str "medium".

Definition session : Session := {| cookie_jar := ∅ |}.

(** Nothing downloaded yet. *)
Definition world_fresh : world :=
  {| fs := {[ str "/dl" := Os.Dir ]}; requests := 0; trace := [] |}.

(** The finished video of an earlier run is in place. *)
Definition world_done : world :=
  {| fs := <[ str "/dl/recording_12345.mp4" := Os.File (str "movie") ]>
             {[ str "/dl" := Os.Dir ]};
     requests := 0; trace := [] |}.

(** An earlier run stopped right after the download: the archive is in
    the working directory and nothing has been unpacked. *)
Definition world_partial : world :=
  {| fs := <[ str "/dl/adobe_connect_12345/12345.zip" := Os.File (str "PKdata") ]>
             (<[ str "/dl/adobe_connect_12345" := Os.Dir ]>
                {[ str "/dl" := Os.Dir ]});
     requests := 0; trace := [] |}.

(** The working directory is there, two requests (the page probes) have
    been made, and the archive is still to be fetched. *)
Definition world_fetching : world :=
  {| fs := <[ str "/dl/adobe_connect_12345" := Os.Dir ]> {[ str "/dl" := Os.Dir ]};
     requests := 2; trace := [] |}.

Definition zip_path : pystr := str "/dl/adobe_connect_12345/12345.zip".

Definition listing : list pystr :=
  [ str "screenshare_1.flv"; str "screenshare_10.flv"; str "screenshare_2.flv";
    str "cameravoip_3.flv"; str "cameravoip_1.flv"; str "notes.flv" ].

Definition extract_folder : pystr := str "/dl/adobe_connect_12345".

(** A command line for a URL without a path, aimed at the server that does
    not answer: no identifier can be resolved and the job fails. *)
Definition args_unresolvable : Args :=
  {| arg_url := str "https://my.adobeconnect.com/";
     arg_output := None;
     arg_cookies := None;
     arg_quality := str "medium" |}.

(** A server whose transfers break after the first chunk. *)
Definition archive_broken : Response :=
  {| status_code := 200;
     content_type := Some (str "application/zip");
     content_length := Some (str "6");
     text := [];
     chunks := [str "PK"];
     stream_ok := false |}.

Definition env_broken : Env :=
  {| http := fun _ _ _ => Some archive_broken;
     unzip := unzip env;
     rmtree_ok := fun _ => true |}.

(** A server that answers every request with the login page. *)
Definition env_login : Env :=
  {| http := fun _ _ _ => Some login_page;
     unzip := unzip env;
     rmtree_ok := fun _ => true |}.

End Scenario.

(* ===================================================================== *)
(** * Part II: properties *)
(* ===================================================================== *)

Arguments str : simpl never.
Opaque str.

(** ** The regular-expression matcher *)

Section ReFacts.

Context {X : Type}.
Implicit Types (f : nat -> option X) (lo k : nat).

Lemma try_down_Some f lo k x :
  Re.try_down f lo k = Some x -> exists j, lo <= j <= k /\ f j = Some x.
Proof.
  induction k as [|k IH]; simpl.
  - destruct (0 <? lo) eqn:Hlo; [discriminate|].
    apply Nat.ltb_ge in Hlo. destruct (f 0) eqn:Hf; [|discriminate].
    intros [= <-]. exists 0. split; [lia|done].
  - destruct (S k <? lo) eqn:Hlo; [discriminate|].
    apply Nat.ltb_ge in Hlo. destruct (f (S k)) eqn:Hf.
    + intros [= <-]. exists (S k). split; [lia|done].
    + intros H. destruct (IH H) as (j & Hj & Hfj). exists j. split; [lia|done].
Qed.



End ReFacts.


Lemma run_length_take f s k :
  k <= Py.run_length f s -> Forall (fun c => f c = true) (take k s).
Proof.
  revert k. induction s as [|c s IH]; intros k Hk; simpl in *.
  - by rewrite take_nil.
  - destruct k; [constructor|]. destruct (f c) eqn:Hc; [|lia].
    simpl. constructor; [done|]. apply IH. lia.
Qed.



(** A pattern without a capturing group leaves group 1 as it was. *)
Lemma match_here_no_capture ic r s g cap :
  no_capture r = true -> Re.match_here ic r s g = Some cap -> cap = g.
Proof.
  revert s g. induction r as [|i r IH]; intros s g Hnc H; simpl in *.
  - by injection H as <-.
  - destruct i as [a|c lo a|].
    + destruct s as [|c s]; [discriminate|].
      destruct (Re.atom_ok ic a c); [|discriminate]. by eapply IH.
    + destruct c; [discriminate|].
      apply try_down_Some in H as (j & _ & H). by eapply IH in H.
    + destruct (Re.at_end s); [|discriminate]. by eapply IH.
Qed.

(** The text of a group [(\d+)] is a non-empty run of ASCII digits,
    whatever surrounds the group in the pattern. *)
Lemma match_here_digits_group ic pre post s g cap :
  no_capture pre = true -> no_capture post = true ->
  Re.match_here ic (pre ++ Re.digits_group :: post) s g = Some cap ->
  cap <> [] /\ Forall (fun c => Py.is_ascii_digit c = true) cap.
Proof.
  intros Hpre Hpost. revert s g.
  induction pre as [|i pre IH]; intros s g H; simpl in *.
  - apply try_down_Some in H as (j & Hj & H).
    apply match_here_no_capture in H as ->; [|done].
    split.
    + destruct s; [simpl in Hj; lia|]. destruct j; [lia|done].
    + apply run_length_take. exact (proj2 Hj).
  - destruct i as [a|c lo a|].
    + destruct s as [|c s]; [discriminate|].
      destruct (Re.atom_ok ic a c); [|discriminate]. by eapply IH.
    + destruct c; [discriminate|].
      apply try_down_Some in H as (j & _ & H). by eapply IH in H.
    + destruct (Re.at_end s); [|discriminate]. by eapply IH.
Qed.

Lemma re_search_Some ic r s cap :
  Re.re_search ic r s = Some cap ->
  exists i, i <= length s /\ Re.match_here ic r (drop i s) [] = Some cap.
Proof.
  induction s as [|c s IH]; simpl.
  - destruct (Re.match_here ic r [] []) eqn:H; [|discriminate].
    intros [= <-]. exists 0. split; [lia|done].
  - destruct (Re.match_here ic r (c :: s) []) eqn:H.
    + intros [= <-]. exists 0. split; [lia|done].
    + intros Hs. destruct (IH Hs) as (i & Hi & Hm). exists (S i). split; [lia|done].
Qed.





(** ** The path fallback of the resolver *)






(** ** What [urlparse] leaves in the path *)

Section Sublists.

Variable P : ascii -> Prop.








End Sublists.


Lemma split_no_sep sep s :
  Forall (fun c => Ascii.eqb c sep = false) s -> Py.split sep s = [s].
Proof.
  induction s as [|c s IH]; simpl; [done|]. intros H.
  apply Forall_cons in H as [Hc H]. rewrite Hc, IH; done.
Qed.






(** ** Identifier resolution *)



Ltac run_prog :=
  cbv beta iota zeta delta
    [bind catch ret raise lift log emit get_fs put_fs os_update session_get
     raise_for_status any_exception is_OSError is_BadZipFile
     fst snd fs requests trace negb] in *.

Lemma get_id_and_type_result E url session w :
  (get_id_and_type E url session w).1 =
  match
    match fetched_body E session (requests w) url with
    | Some body => first_match patterns body
    | None => None
    end
  with
  | Some found_id => Ok (Some (found_id, str "sco-id"))
  | None =>
      match Url.urlparse url with
      | Ok parsed =>
          match Re.re_search false path_pattern
                  (Py.first_piece (Py.split "?" (Py.strip_char "/" (Url.path parsed)))) with
          | Some found_id => Ok (Some (found_id, str "path-id"))
          | None => Ok None
          end
      | Raise e => Raise e
      end
  end.
Proof.
  unfold get_id_and_type, fetched_body. run_prog.
  destruct w as [m n tr]. run_prog.
  destruct (http E session n url) as [r|].
  - destruct ((400 <=? status_code r)%Z && (status_code r <? 600)%Z).
    + destruct (Url.urlparse url) as [parsed|e]; [|done].
      by destruct (Re.re_search false path_pattern _).
    + destruct (first_match patterns (text r)); [done|].
      destruct (Url.urlparse url) as [parsed|e]; [|done].
      by destruct (Re.re_search false path_pattern _).
  - destruct (Url.urlparse url) as [parsed|e]; [|done].
    by destruct (Re.re_search false path_pattern _).
Qed.




(** ** Archive candidates *)

Definition add_key (d : list pystr) (k : pystr) : list pystr :=
  if bool_decide (k ∈ d) then d else d ++ [k].

Lemma fold_add_key_prefix l d : d `prefix_of` fold_left add_key l d.
Proof.
  revert d. induction l as [|k l IH]; intros d; simpl; [done|].
  etrans; [|apply IH]. unfold add_key. case_bool_decide; [done|].
  by apply prefix_app_r.
Qed.

Lemma fold_add_key_NoDup l d : NoDup d -> NoDup (fold_left add_key l d).
Proof.
  revert d. induction l as [|k l IH]; intros d Hd; simpl; [done|].
  apply IH. unfold add_key. case_bool_decide; [done|].
  apply NoDup_app. split; [done|]. split; [|apply NoDup_singleton].
  intros x Hx Hk. apply list_elem_of_singleton in Hk. by subst.
Qed.

Lemma fold_add_key_elem l d x :
  x ∈ fold_left add_key l d <-> x ∈ d \/ x ∈ l.
Proof.
  revert d. induction l as [|k l IH]; intros d; simpl.
  - split; [by left|]. intros [?|H]; [done|]. by apply elem_of_nil in H.
  - rewrite IH. unfold add_key. rewrite elem_of_cons. case_bool_decide as Hk.
    + split; [tauto|]. intros [?|[->|?]]; tauto.
    + rewrite elem_of_app, list_elem_of_singleton. tauto.
Qed.

(** [dict.fromkeys] keeps each key once, at the place where it is first
    seen: the result has no duplicates, holds the same keys, and reading
    more of the input only appends to it. *)
Lemma dict_fromkeys_NoDup l : NoDup (dict_fromkeys l).
Proof. apply fold_add_key_NoDup, NoDup_nil_2. Qed.

Lemma dict_fromkeys_elem l x : x ∈ dict_fromkeys l <-> x ∈ l.
Proof.
  unfold dict_fromkeys. change (fun d k => _) with add_key.
  rewrite fold_add_key_elem. split; [|by right].
  intros [H|H]; [by apply elem_of_nil in H|done].
Qed.

Lemma dict_fromkeys_first_seen l n :
  dict_fromkeys (take n l) `prefix_of` dict_fromkeys l.
Proof.
  rewrite <- (take_drop n l) at 2. unfold dict_fromkeys.
  rewrite fold_left_app. apply fold_add_key_prefix.
Qed.

Lemma get_account_id_result E url session w :
  (get_account_id E url session w).1
  = Ok (discovered_account E session (requests w) url).
Proof.
  unfold get_account_id, discovered_account. destruct w as [m n tr]. run_prog.
  by destruct (http E session n url).
Qed.

Lemma construct_zip_urls_result E url recording_id id_type session w :
  (construct_zip_urls E url recording_id id_type session w).1 =
  match Url.urlparse url with
  | Ok parsed =>
      Ok (dict_fromkeys
            (candidate_urls (base_of parsed) recording_id
               (discovered_account E session (requests w) url)))
  | Raise e => Raise e
  end.
Proof.
  unfold construct_zip_urls, base_of. run_prog.
  destruct (Url.urlparse url) as [parsed|e]; [|done].
  pose proof (get_account_id_result E url session w) as H.
  destruct (get_account_id E url session w) as [[a|e] w']; simpl in H; by inversion H.
Qed.

(** C4 (as amended). The candidate list is a function of the scheme and
    host of the recording URL, the identifier and the account identifier
    that was discovered (its value, or its absence): two calls that agree
    on these yield the same list in the same order, whatever the
    identifier kinds.  The list is made of the four base-shape URLs,
    followed by the two content-hierarchy URLs exactly when an account
    identifier was found, with duplicates removed and every URL kept where
    it is first seen. *)
Theorem construct_zip_urls_deterministic
    E1 E2 url1 url2 recording_id id_type1 id_type2 session1 session2 w1 w2
    parsed1 parsed2 :
  Url.urlparse url1 = Ok parsed1 ->
  Url.urlparse url2 = Ok parsed2 ->
  base_of parsed1 = base_of parsed2 ->
  discovered_account E1 session1 (requests w1) url1
    = discovered_account E2 session2 (requests w2) url2 ->
  let account_id := discovered_account E1 session1 (requests w1) url1 in
  let candidates := candidate_urls (base_of parsed1) recording_id account_id in
  exists urls,
    (construct_zip_urls E1 url1 recording_id id_type1 session1 w1).1 = Ok urls
    /\ (construct_zip_urls E2 url2 recording_id id_type2 session2 w2).1 = Ok urls
    /\ urls = dict_fromkeys candidates
    /\ take 4 candidates = candidate_urls (base_of parsed1) recording_id None
    /\ length candidates = match account_id with Some _ => 6 | None => 4 end
    /\ NoDup urls
    /\ (forall u, u ∈ urls <-> u ∈ candidates)
    /\ (forall n, dict_fromkeys (take n candidates) `prefix_of` urls).
Proof.
  intros Hp1 Hp2 Hbase Hacc. cbv zeta.
  assert (discovered_account E1 session1 (requests w1) url1 <> Some []) as Hne.
  { unfold discovered_account. intros Ha.
    destruct (http E1 session1 (requests w1) url1) as [r|]; [|done].
    apply re_search_Some in Ha as (i & _ & Ha).
    change account_pattern with
      ((Re.lits (str "account_id") ++ [Re.spaces; Re.One (Re.Lit "="); Re.spaces])
         ++ Re.digits_group :: []) in Ha.
    apply match_here_digits_group in Ha as [Hne _]; [done|by vm_compute|done]. }
  eexists. split; [|split; [|split; [reflexivity|]]].
  - rewrite construct_zip_urls_result, Hp1. reflexivity.
  - rewrite construct_zip_urls_result, Hp2, <- Hbase, <- Hacc. reflexivity.
  - destruct (discovered_account E1 session1 (requests w1) url1) as [[|c a]|];
      [done| | ]; (repeat split;
        [apply dict_fromkeys_NoDup | by apply dict_fromkeys_elem
        | by apply dict_fromkeys_elem | intros n; apply dict_fromkeys_first_seen]).
Qed.

(** C4 (as stated, refuted). Two servers that both reveal an account
    identifier, 7 on one and 8 on the other: scheme and host, identifier,
    kind and the presence of an account identifier all agree, and the
    candidate lists differ. *)
Lemma candidates_depend_on_account_value :
  is_Some (discovered_account Scenario.env Scenario.session 0 Scenario.meeting_url)
  /\ is_Some (discovered_account Scenario.env_other_account Scenario.session 0
                Scenario.meeting_url)
  /\ (construct_zip_urls Scenario.env Scenario.meeting_url (str "12345") (str "sco-id")
        Scenario.session Scenario.world_fresh).1
     <> (construct_zip_urls Scenario.env_other_account Scenario.meeting_url (str "12345")
           (str "sco-id") Scenario.session Scenario.world_fresh).1.
Proof.
  split; [eexists; vm_compute; reflexivity|].
  split; [eexists; vm_compute; reflexivity|].
  intros H. vm_compute in H. discriminate.
Qed.

Lemma construct_zip_urls_deterministic_witness :
  exists urls,
    (construct_zip_urls Scenario.env Scenario.meeting_url (str "12345") (str "sco-id")
       Scenario.session Scenario.world_fresh).1 = Ok urls
    /\ (construct_zip_urls Scenario.env (str "https://my.adobeconnect.com/other/page")
          (str "12345") (str "path-id") Scenario.session Scenario.world_fresh).1 = Ok urls
    /\ length urls = 6.
Proof.
  edestruct (construct_zip_urls_deterministic Scenario.env Scenario.env
               Scenario.meeting_url (str "https://my.adobeconnect.com/other/page")
               (str "12345") (str "sco-id") (str "path-id")
               Scenario.session Scenario.session Scenario.world_fresh Scenario.world_fresh)
    as (urls & H1 & H2 & Hurls & _).
  - vm_compute. reflexivity.
  - vm_compute. reflexivity.
  - vm_compute. reflexivity.
  - vm_compute. reflexivity.
  - exists urls. split; [exact H1|]. split; [exact H2|].
    rewrite Hurls. vm_compute. reflexivity.
Defined.

(** C9. The identifier kind has no effect on the candidate list: with the
    URL, the identifier and the world fixed, ['sco-id'], ['path-id'] or any
    other kind give the same result, list and order. *)
Theorem construct_zip_urls_ignores_id_type E url recording_id id_type1 id_type2 session w :
  construct_zip_urls E url recording_id id_type1 session w
  = construct_zip_urls E url recording_id id_type2 session w.
Proof. reflexivity. Qed.

(** ** The stable sort of the classifier *)

Lemma insert_sorted_Permutation x l : insert_sorted x l ≡ₚ x :: l.
Proof.
  induction l as [|y l IH]; simpl; [done|].
  destruct (y.1 <=? x.1)%Z; [|done].
  rewrite IH. apply Permutation_swap.
Qed.

Lemma insert_sorted_sorted x l :
  StronglySorted key_le l -> StronglySorted key_le (insert_sorted x l).
Proof.
  induction 1 as [|y l Hl IH Hy]; simpl.
  - repeat constructor.
  - destruct (y.1 <=? x.1)%Z eqn:Hle.
    + constructor; [done|]. rewrite insert_sorted_Permutation.
      constructor; [|done]. unfold key_le. lia.
    + apply Z.leb_gt in Hle. constructor; [by constructor|].
      constructor; [unfold key_le; lia|].
      eapply Forall_impl; [exact Hy|]. unfold key_le. intros z Hz. lia.
Qed.

Lemma filter_key_none (k : Z) (l : list (Z * pystr)) :
  Forall (fun y => y.1 <> k) l -> filter (fun y : Z * pystr => y.1 = k) l = [].
Proof.
  induction 1 as [|y l Hy Hl IH]; [done|].
  by rewrite filter_cons_False.
Qed.

Lemma insert_sorted_filter (k : Z) x l :
  StronglySorted key_le l ->
  filter (fun y : Z * pystr => y.1 = k) (insert_sorted x l)
  = filter (fun y : Z * pystr => y.1 = k) l
      ++ (if decide (x.1 = k) then [x] else []).
Proof.
  induction 1 as [|y l Hl IH Hy]; simpl.
  - rewrite filter_cons, filter_nil. by destruct (decide (x.1 = k)).
  - destruct (y.1 <=? x.1)%Z eqn:Hle.
    + rewrite !filter_cons, IH. by destruct (decide (y.1 = k)).
    + apply Z.leb_gt in Hle. rewrite (filter_cons _ x).
      destruct (decide (x.1 = k)) as [Hx|Hx]; [|by rewrite app_nil_r].
      assert (filter (fun y0 : Z * pystr => y0.1 = k) (y :: l) = []) as ->; [|done].
      apply filter_key_none. apply Forall_cons. split; [lia|].
      eapply Forall_impl; [exact Hy|]. unfold key_le. intros z Hz. lia.
Qed.

Lemma fold_insert_sorted l acc :
  StronglySorted key_le acc ->
  StronglySorted key_le (fold_left (fun a x => insert_sorted x a) l acc)
  /\ fold_left (fun a x => insert_sorted x a) l acc ≡ₚ acc ++ l
  /\ forall k : Z,
       filter (fun y : Z * pystr => y.1 = k) (fold_left (fun a x => insert_sorted x a) l acc)
       = filter (fun y : Z * pystr => y.1 = k) acc
           ++ filter (fun y : Z * pystr => y.1 = k) l.
Proof.
  revert acc. induction l as [|x l IH]; intros acc Hacc; simpl.
  - split; [done|]. split; [by rewrite app_nil_r|].
    intros k. by rewrite filter_nil, app_nil_r.
  - destruct (IH (insert_sorted x acc)) as (Hs & Hp & Hf);
      [by apply insert_sorted_sorted|].
    split; [done|]. split.
    + rewrite Hp, insert_sorted_Permutation. apply Permutation_middle.
    + intros k. rewrite Hf, insert_sorted_filter by done.
      rewrite filter_cons, <- app_assoc. by destruct (decide (x.1 = k)).
Qed.

(** [stable_sort] sorts on the keys, keeps the elements, and keeps the
    elements that share a key in the order in which they came. *)
Lemma stable_sort_spec l :
  StronglySorted key_le (stable_sort l)
  /\ stable_sort l ≡ₚ l
  /\ forall k : Z,
       filter (fun y : Z * pystr => y.1 = k) (stable_sort l)
       = filter (fun y : Z * pystr => y.1 = k) l.
Proof.
  unfold stable_sort.
  destruct (fold_insert_sorted l []) as (Hs & Hp & Hf); [constructor|].
  split; [done|]. split; [done|]. intros k. by rewrite (Hf k), filter_nil.
Qed.

Lemma keyed_Ok l kl :
  keyed l = Ok kl -> kl = map (fun f => (key_of f, f)) l.
Proof.
  revert kl. induction l as [|f l IH]; intros kl; simpl.
  - by intros [= <-].
  - unfold key_of. destruct (sort_key f) as [k|e]; [|done].
    destruct (keyed l) as [kl'|e]; [|done].
    intros [= <-]. by rewrite (IH kl').
Qed.

Definition keyed_pair (p : Z * pystr) : Prop := p.1 = key_of p.2.

Lemma keyed_filter_snd (k : Z) sl :
  Forall keyed_pair sl ->
  map snd (filter (fun y : Z * pystr => y.1 = k) sl)
  = filter (fun f => key_of f = k) (map snd sl).
Proof.
  induction 1 as [|p sl Hp Hsl IH]; [done|].
  simpl map. rewrite !filter_cons. unfold keyed_pair in Hp. rewrite <- Hp.
  destruct (decide (p.1 = k)); simpl; by rewrite IH.
Qed.

Lemma keyed_sorted_snd sl :
  Forall keyed_pair sl -> StronglySorted key_le sl ->
  StronglySorted (fun a b => (key_of a <= key_of b)%Z) (map snd sl).
Proof.
  intros Hk Hs. induction Hs as [|p sl Hs IH Hp]; simpl; [constructor|].
  apply Forall_cons in Hk as [Hkp Hk]. constructor; [by apply IH|].
  apply Forall_fmap. eapply Forall_impl.
  - apply Forall_and. split; [exact Hp|exact Hk].
  - intros q [Hq Hkq]. unfold key_le, keyed_pair in *. simpl. by rewrite <- Hkp, <- Hkq.
Qed.

Lemma keyed_map l : Forall keyed_pair (map (fun f => (key_of f, f)) l).
Proof. apply Forall_fmap, Forall_true. by intros f. Qed.

(** [sorted(l, key=sort_key)]: ascending keys, the same files, and files
    with equal keys in their original relative order. *)
Lemma sorted_spec l l' :
  sorted l = Ok l' ->
  StronglySorted (fun a b => (key_of a <= key_of b)%Z) l'
  /\ l' ≡ₚ l
  /\ forall k : Z, filter (fun f => key_of f = k) l' = filter (fun f => key_of f = k) l.
Proof.
  unfold sorted. destruct (keyed l) as [kl|e] eqn:Hkl; [|done].
  intros [= <-]. apply keyed_Ok in Hkl. subst kl.
  destruct (stable_sort_spec (map (fun f => (key_of f, f)) l)) as (Hs & Hp & Hf).
  assert (Forall keyed_pair (stable_sort (map (fun f => (key_of f, f)) l))) as Hk.
  { rewrite Hp. apply keyed_map. }
  assert (map snd (map (fun f => (key_of f, f)) l) = l) as Hsnd.
  { rewrite map_map. simpl. apply map_id. }
  split; [by apply keyed_sorted_snd|]. split.
  - rewrite Hp. by rewrite Hsnd.
  - intros k. rewrite <- keyed_filter_snd by done. rewrite Hf.
    rewrite keyed_filter_snd by apply keyed_map. by rewrite Hsnd.
Qed.

Lemma sort_streams_groups streams streams' :
  sort_streams streams = Ok streams' ->
  Forall2 (fun g g' => g'.1 = g.1 /\ sorted g.2 = Ok g'.2) streams streams'.
Proof.
  revert streams'. induction streams as [|[name files] rest IH]; intros streams'; simpl.
  - intros [= <-]. constructor.
  - destruct (sorted files) as [files'|e] eqn:Hf; [|done].
    destruct (sort_streams rest) as [rest'|e]; [|done].
    intros [= <-]. constructor; [done|]. by apply IH.
Qed.

Lemma find_media_streams_result extract_folder w :
  (find_media_streams extract_folder w).1 =
  match Os.listdir (fs w) extract_folder with
  | Some listing => classify extract_folder listing
  | None => Raise FileNotFoundError
  end.
Proof.
  unfold find_media_streams. destruct w as [m n tr]. run_prog.
  destruct (Os.listdir m extract_folder) as [listing|]; [|done].
  destruct (classify extract_folder listing) as [streams|e]; [|done].
  by destruct (dict_get (str "cameravoip") streams) as [[|]|].
Qed.

(** ** Stream classification *)

(** C3 (as stated, refuted). On the six file names of the example the
    classifier builds the groups ['screenshare'] and ['cameravoip'] only:
    [notes.flv] has no underscore after its leading token, the pattern
    [([a-zA-Z0-9]+)_] does not match it, and it ends up in no group at
    all, also not under a prefix of its own. *)
Lemma notes_flv_is_not_grouped :
  exists streams,
    classify Scenario.extract_folder Scenario.listing = Ok streams
    /\ dict_get (str "notes") streams = None
    /\ Forall (fun g => Os.join Scenario.extract_folder (str "notes.flv") ∉ g.2) streams.
Proof.
  eexists. split; [vm_compute; reflexivity|]. split; [vm_compute; reflexivity|].
  repeat constructor; apply (bool_decide_unpack _); vm_compute; exact I.
Qed.

(** C3 (as amended). On the six file names of the example the classifier
    produces exactly two groups, ['screenshare'] in the order 1, 2, 10
    (numeric, not lexical) and ['cameravoip'] in the order 1, 3;
    [notes.flv] is in neither.  In general a file whose last
    underscore-separated piece before the extension is not made of digits
    gets the key 0, and whenever the classifier returns, each group holds
    the files that the scan collected for it, in ascending key order, with
    files of equal key in the order in which the scan met them. *)
Theorem classifier_groups_and_order :
  classify Scenario.extract_folder Scenario.listing
  = Ok [ (str "screenshare",
          [ str "/dl/adobe_connect_12345/screenshare_1.flv";
            str "/dl/adobe_connect_12345/screenshare_2.flv";
            str "/dl/adobe_connect_12345/screenshare_10.flv" ]);
         (str "cameravoip",
          [ str "/dl/adobe_connect_12345/cameravoip_1.flv";
            str "/dl/adobe_connect_12345/cameravoip_3.flv" ]) ]
  /\ (forall f, Py.isdigit (sequence_piece f) = false -> sort_key f = Ok 0%Z)
  /\ (forall extract_folder listing streams,
        classify extract_folder listing = Ok streams ->
        Forall2
          (fun scanned group =>
             group.1 = scanned.1
             /\ StronglySorted (fun a b => (key_of a <= key_of b)%Z) group.2
             /\ group.2 ≡ₚ scanned.2
             /\ forall k : Z,
                  filter (fun f => key_of f = k) group.2
                  = filter (fun f => key_of f = k) scanned.2)
          (scan_streams extract_folder listing []) streams).
Proof.
  split; [vm_compute; reflexivity|]. split.
  - intros f Hf. unfold sort_key. fold (sequence_piece f). by rewrite Hf.
  - intros extract_folder listing streams H.
    apply sort_streams_groups in H.
    eapply Forall2_impl; [exact H|].
    intros g g' [Hname Hsorted]. split; [done|]. by apply sorted_spec.
Qed.

Lemma classifier_groups_and_order_witness :
  sort_key (str "/dl/adobe_connect_12345/cameravoip_final.flv") = Ok 0%Z
  /\ Forall2
       (fun scanned group =>
          group.1 = scanned.1
          /\ StronglySorted (fun a b => (key_of a <= key_of b)%Z) group.2
          /\ group.2 ≡ₚ scanned.2
          /\ forall k : Z,
               filter (fun f => key_of f = k) group.2
               = filter (fun f => key_of f = k) scanned.2)
       (scan_streams Scenario.extract_folder Scenario.listing [])
       [ (str "screenshare",
          [ str "/dl/adobe_connect_12345/screenshare_1.flv";
            str "/dl/adobe_connect_12345/screenshare_2.flv";
            str "/dl/adobe_connect_12345/screenshare_10.flv" ]);
         (str "cameravoip",
          [ str "/dl/adobe_connect_12345/cameravoip_1.flv";
            str "/dl/adobe_connect_12345/cameravoip_3.flv" ]) ].
Proof.
  split.
  - apply (proj1 (proj2 classifier_groups_and_order)). vm_compute. reflexivity.
  - apply (proj2 (proj2 classifier_groups_and_order)
             Scenario.extract_folder Scenario.listing).
    exact (proj1 classifier_groups_and_order).
Defined.

(** ** Paths *)

Lemma startswith_app a b c : Py.startswith (a ++ b) (a ++ c) = Py.startswith b c.
Proof.
  induction a as [|x a IH]; simpl; [done|].
  by rewrite Ascii.eqb_refl, IH.
Qed.

Lemma under_below d x : Os.under d (d ++ Os.sep :: x) = true.
Proof.
  unfold Os.under. apply orb_true_iff. right.
  rewrite startswith_app. simpl. by destruct x.
Qed.

Lemma has_char_app c a b : Py.has_char c (a ++ b) = Py.has_char c a || Py.has_char c b.
Proof. unfold Py.has_char. apply existsb_app. Qed.

Lemma has_char_rev c x : Py.has_char c (rev x) = Py.has_char c x.
Proof.
  induction x as [|a x IH]; [done|].
  simpl rev. rewrite has_char_app, IH. simpl.
  rewrite orb_false_r. apply orb_comm.
Qed.

Lemma startswith_sep_has_char x :
  Py.has_char Os.sep x = false -> Py.startswith x [Os.sep] = false.
Proof.
  destruct x as [|c x]; [done|]. simpl.
  intros H. apply orb_false_iff in H as [H _]. by rewrite H.
Qed.

Lemma endswith_sep_has_char a x :
  x <> [] -> Py.has_char Os.sep x = false -> Py.endswith (a ++ x) [Os.sep] = false.
Proof.
  intros Hne Hx. unfold Py.endswith. rewrite rev_app_distr.
  destruct (rev x) as [|c y] eqn:Hr.
  { apply (f_equal (@rev ascii)) in Hr. rewrite rev_involutive in Hr. done. }
  simpl. assert (Py.has_char Os.sep (rev x) = false) as Hrev.
  { by rewrite has_char_rev. }
  rewrite Hr in Hrev. simpl in Hrev. apply orb_false_iff in Hrev as [H _].
  by rewrite H.
Qed.

(** Joining a directory with a name that has no separator puts the name
    below the directory. *)
Lemma join_below a x :
  a <> [] -> Py.endswith a [Os.sep] = false -> Py.has_char Os.sep x = false ->
  Os.join a x = a ++ Os.sep :: x.
Proof.
  intros Ha He Hx. unfold Os.join.
  rewrite startswith_sep_has_char by done.
  rewrite bool_decide_eq_false_2 by done. by rewrite He.
Qed.

Lemma join_plain a x :
  x <> [] -> Py.has_char Os.sep x = false ->
  Os.join a x <> [] /\ Py.endswith (Os.join a x) [Os.sep] = false.
Proof.
  intros Hne Hx. unfold Os.join.
  rewrite startswith_sep_has_char by done.
  destruct (bool_decide (a = []) || Py.endswith a [Os.sep]).
  - split; [by destruct a, x|]. by apply endswith_sep_has_char.
  - split; [by destruct a|].
    change (a ++ Os.sep :: x) with (a ++ [Os.sep] ++ x). rewrite app_assoc.
    by apply endswith_sep_has_char.
Qed.

Lemma temp_output_dir_plain file_ops recording_id :
  safe_names file_ops ->
  temp_output_dir_of file_ops recording_id <> []
  /\ Py.endswith (temp_output_dir_of file_ops recording_id) [Os.sep] = false.
Proof.
  intros Hsafe. unfold temp_output_dir_of. apply join_plain.
  - Transparent str. by vm_compute. Opaque str.
  - rewrite has_char_app, Hsafe. by vm_compute.
Qed.

(** Every name that a job builds inside its working directory lies below
    that directory. *)
Lemma under_temp file_ops recording_id x :
  safe_names file_ops -> Py.has_char Os.sep x = false ->
  Os.under (temp_output_dir_of file_ops recording_id)
           (Os.join (temp_output_dir_of file_ops recording_id) x) = true.
Proof.
  intros Hsafe Hx.
  destruct (temp_output_dir_plain file_ops recording_id Hsafe) as [Hne He].
  rewrite join_below by done. apply under_below.
Qed.

(** ** File-system operations and the files they leave alone *)

Lemma frame_refl d m : frame d m m.
Proof. by intros p _. Qed.

Lemma frame_trans d m1 m2 m3 : frame d m1 m2 -> frame d m2 m3 -> frame d m1 m3.
Proof. intros H12 H23 p Hp. by rewrite H23, H12. Qed.

Lemma file_at_insert m p n q :
  file_at (<[p := n]> m) q
  = if decide (p = q) then match n with Os.File c => Some c | Os.Dir => None end
    else file_at m q.
Proof.
  unfold file_at. rewrite lookup_insert. by destruct (decide (p = q)).
Qed.

Lemma frame_insert_under d m p n : Os.under d p = true -> frame d m (<[p := n]> m).
Proof.
  intros Hp q Hq. rewrite file_at_insert.
  destruct (decide (p = q)) as [->|]; [congruence|done].
Qed.

Lemma file_at_mkdirs dirs m q :
  Forall (fun d => Os.is_file (m !! d) = false) dirs ->
  file_at (foldr (fun d acc => <[d := Os.Dir]> acc) m dirs) q = file_at m q.
Proof.
  induction 1 as [|d dirs Hd Hdirs IH]; simpl; [done|].
  rewrite file_at_insert. destruct (decide (d = q)) as [->|]; [|done].
  unfold file_at. unfold Os.is_file in Hd. by destruct (m !! q) as [[]|].
Qed.

Lemma file_at_makedirs p m m' q :
  Os.makedirs p m = Some m' -> file_at m' q = file_at m q.
Proof.
  unfold Os.makedirs.
  destruct (existsb _ _) eqn:Hex; [discriminate|]. intros [= <-].
  apply file_at_mkdirs. apply Forall_forall. intros d Hd.
  apply not_true_is_false. intros Hf.
  assert (existsb (fun q0 => Os.is_file (m !! q0)) (Os.ancestors p ++ [p]) = true);
    [|congruence].
  apply existsb_exists. exists d. split; [by apply list_elem_of_In|done].
Qed.

Lemma frame_makedirs d p m m' : Os.makedirs p m = Some m' -> frame d m m'.
Proof. intros H q _. by eapply file_at_makedirs. Qed.

Lemma frame_open_w d p m m' :
  Os.under d p = true -> Os.open_w p m = Some m' -> frame d m m'.
Proof.
  intros Hp. unfold Os.open_w. destruct (_ || _); [discriminate|].
  intros [= <-]. by apply frame_insert_under.
Qed.

Lemma frame_append d p chunk m : Os.under d p = true -> frame d m (Os.append p chunk m).
Proof.
  intros Hp. unfold Os.append.
  destruct (m !! p) as [[c|]|]; try apply frame_refl. by apply frame_insert_under.
Qed.

Lemma frame_rmtree d m : frame d m (Os.rmtree d m).
Proof.
  intros q Hq. unfold file_at, Os.rmtree.
  destruct (m !! q) as [n|] eqn:Hm.
  - erewrite (proj2 (map_lookup_filter_Some _ m q n)); [done|]. by split.
  - by rewrite (map_lookup_filter_None_2 _ m q) by (by left).
Qed.

Lemma frame_extract_members d members m m' :
  Os.extract_members d members m = Some m' -> frame d m m'.
Proof.
  revert m. induction members as [|[name content] rest IH]; intros m; simpl.
  - intros [= <-]. apply frame_refl.
  - destruct (List.last _ _) as [parent|]; [|discriminate].
    destruct (Os.makedirs parent m) as [m1|] eqn:H1; [|discriminate].
    destruct (Os.open_w (d ++ Os.sep :: name) m1) as [m2|] eqn:H2; [|discriminate].
    intros H3. apply IH in H3.
    eapply frame_trans; [by eapply frame_makedirs|].
    eapply frame_trans; [eapply frame_open_w; [apply under_below|exact H2]|].
    eapply frame_trans; [apply frame_append, under_below|exact H3].
Qed.

(** ** Quiet computations *)

Lemma bind_case {A B} (m : M A) (k : A -> M B) w (P : result B * world -> Prop) :
  (forall a w', m w = (Ok a, w') -> P (k a w')) ->
  (forall e w', m w = (Raise e, w') -> P (Raise e, w')) ->
  P (bind m k w).
Proof.
  intros Hok Hraise. unfold bind. destruct (m w) as [[a|e] w'] eqn:Hm; auto.
Qed.

Lemma catch_case {A} caught (m : M A) (h : exn -> M A) w (P : result A * world -> Prop) :
  (forall a w', m w = (Ok a, w') -> P (Ok a, w')) ->
  (forall e w', m w = (Raise e, w') -> caught e = true -> P (h e w')) ->
  (forall e w', m w = (Raise e, w') -> caught e = false -> P (Raise e, w')) ->
  P (catch caught m h w).
Proof.
  intros Hok Hc Hn. unfold catch. destruct (m w) as [[a|e] w'] eqn:Hm; [auto|].
  destruct (caught e) eqn:He; auto.
Qed.

Lemma quiet_step_refl d w : quiet_step d w w.
Proof.
  exists []. split; [by rewrite app_nil_r|]. split; [constructor|apply frame_refl].
Qed.

Lemma quiet_step_trans d w1 w2 w3 :
  quiet_step d w1 w2 -> quiet_step d w2 w3 -> quiet_step d w1 w3.
Proof.
  intros (e1 & Ht1 & Hq1 & Hf1) (e2 & Ht2 & Hq2 & Hf2). exists (e1 ++ e2).
  split; [by rewrite Ht2, Ht1, app_assoc|].
  split; [by apply Forall_app|by eapply frame_trans].
Qed.

Lemma Quiet_ret d {A} (a : A) : Quiet d (ret a).
Proof. intros w. apply quiet_step_refl. Qed.

Lemma Quiet_raise d {A} e : Quiet d (@raise A e).
Proof. intros w. apply quiet_step_refl. Qed.

Lemma Quiet_lift d {A} (r : result A) : Quiet d (lift r).
Proof. intros w. apply quiet_step_refl. Qed.

Lemma Quiet_get_fs d : Quiet d get_fs.
Proof. intros w. apply quiet_step_refl. Qed.

Lemma Quiet_bind d {A B} (m : M A) (k : A -> M B) :
  Quiet d m -> (forall a, Quiet d (k a)) -> Quiet d (bind m k).
Proof.
  intros Hm Hk w. pose proof (Hm w) as H1.
  apply (bind_case m k w (fun rw => quiet_step d w rw.2)).
  - intros a w' Hw. rewrite Hw in H1. eapply quiet_step_trans; [exact H1|apply Hk].
  - intros e w' Hw. by rewrite Hw in H1.
Qed.

Lemma Quiet_catch d {A} caught (m : M A) (h : exn -> M A) :
  Quiet d m -> (forall e, Quiet d (h e)) -> Quiet d (catch caught m h).
Proof.
  intros Hm Hh w. pose proof (Hm w) as H1.
  apply (catch_case caught m h w (fun rw => quiet_step d w rw.2)).
  - intros a w' Hw. by rewrite Hw in H1.
  - intros e w' Hw _. rewrite Hw in H1. eapply quiet_step_trans; [exact H1|apply Hh].
  - intros e w' Hw _. by rewrite Hw in H1.
Qed.

Lemma Quiet_emit d e : quiet_event e = true -> Quiet d (emit e).
Proof.
  intros He w. exists [e]. split; [done|]. split; [by constructor|apply frame_refl].
Qed.

Lemma Quiet_log d l msg : Quiet d (log l msg).
Proof. by apply Quiet_emit. Qed.

Lemma Quiet_session_get E d session url : Quiet d (session_get E session url).
Proof.
  intros w. exists [EvHttpGet url]. unfold session_get.
  destruct (http E session (requests w) url); (split; [done|]);
    (split; [by constructor|apply frame_refl]).
Qed.

Lemma Quiet_raise_for_status d r : Quiet d (raise_for_status r).
Proof. unfold raise_for_status. destruct (_ && _); [apply Quiet_raise|apply Quiet_ret]. Qed.

Lemma Quiet_os_update d f :
  (forall m m', f m = Some m' -> frame d m m') -> Quiet d (os_update f).
Proof.
  intros Hf w. unfold os_update. run_prog.
  destruct (f (let (fs, _, _) := w in fs)) as [m'|] eqn:Hm; simpl.
  - exists []. split; [by rewrite app_nil_r|]. split; [constructor|].
    destruct w as [m n tr]. by apply Hf.
  - apply quiet_step_refl.
Qed.

(** Replacing the file system by a function of itself, then going on. *)
Lemma Quiet_modify (d : pystr) (f : gmap pystr Os.node -> gmap pystr Os.node)
    {A} (k : M A) :
  (forall m : gmap pystr Os.node, frame d m (f m)) -> Quiet d k ->
  Quiet d (bind get_fs (fun m => bind (put_fs (f m)) (fun _ => k))).
Proof.
  intros Hf Hk [m n tr]. run_prog.
  eapply quiet_step_trans; [|apply Hk].
  exists []. split; [by rewrite app_nil_r|]. split; [constructor|apply Hf].
Qed.

Ltac quiet :=
  repeat match goal with
    | |- Quiet _ (ret _) => apply Quiet_ret
    | |- Quiet _ (raise _) => apply Quiet_raise
    | |- Quiet _ (lift _) => apply Quiet_lift
    | |- Quiet _ (log _ _) => apply Quiet_log
    | |- Quiet _ get_fs => apply Quiet_get_fs
    | |- Quiet _ (session_get _ _ _) => apply Quiet_session_get
    | |- Quiet _ (raise_for_status _) => apply Quiet_raise_for_status
    | |- Quiet _ (emit _) => apply Quiet_emit; reflexivity
    | |- Quiet _ (bind _ _) => apply Quiet_bind; [|intros ?]
    | |- Quiet _ (catch _ _ _) => apply Quiet_catch; [|intros ?]
    | |- Quiet _ (match ?x with _ => _ end) => destruct x
    end.

Lemma Quiet_setup_session d cookie_str : Quiet d (setup_session cookie_str).
Proof. unfold setup_session. quiet. Qed.

Lemma Quiet_get_id_and_type E d url session : Quiet d (get_id_and_type E url session).
Proof. unfold get_id_and_type. quiet. Qed.

Lemma Quiet_get_account_id E d url session : Quiet d (get_account_id E url session).
Proof. unfold get_account_id. quiet. Qed.

Lemma Quiet_construct_zip_urls E d url recording_id id_type session :
  Quiet d (construct_zip_urls E url recording_id id_type session).
Proof. unfold construct_zip_urls. quiet. apply Quiet_get_account_id. Qed.

Lemma Quiet_write_chunks d p cs : Os.under d p = true -> Quiet d (write_chunks p cs).
Proof.
  intros Hp. induction cs as [|chunk rest IH]; simpl; [apply Quiet_ret|].
  apply (Quiet_modify d (Os.append p chunk)); [intros m; by apply frame_append|].
  quiet. exact IH.
Qed.

Lemma Quiet_download_zip_file E d zip_url output_path session :
  Os.under d output_path = true ->
  Quiet d (download_zip_file E zip_url output_path session).
Proof.
  intros Hp. unfold download_zip_file. quiet;
    try (by apply Quiet_write_chunks);
    apply Quiet_os_update; intros m m'; by apply frame_open_w.
Qed.

Lemma Quiet_try_zip_urls E d zip_urls zip_path session :
  Os.under d zip_path = true -> Quiet d (try_zip_urls E zip_urls zip_path session).
Proof.
  intros Hp. induction zip_urls as [|u rest IH]; simpl; quiet;
    [by apply Quiet_download_zip_file|exact IH].
Qed.

Lemma Quiet_extractall E d zip_path : Quiet d (extractall E zip_path d).
Proof.
  unfold extractall. quiet.
  apply Quiet_os_update. intros m m'. apply frame_extract_members.
Qed.

Lemma Quiet_find_media_streams d extract_folder : Quiet d (find_media_streams extract_folder).
Proof. unfold find_media_streams. quiet. Qed.

Lemma Quiet_cleanup_temp_directory E d : Quiet d (cleanup_temp_directory E d).
Proof.
  intros [m n tr]. unfold cleanup_temp_directory. run_prog.
  destruct (Os.isdir m d); [|by eexists [_]; repeat split; repeat constructor; apply frame_refl].
  destruct (rmtree_ok E d); simpl.
  - eexists [_; _; _]. split; [by rewrite <- !app_assoc|].
    split; [by repeat constructor|apply frame_rmtree].
  - eexists [_; _; _]. split; [by rewrite <- !app_assoc|].
    split; [by repeat constructor|apply frame_refl].
Qed.

Lemma Quiet_download_and_extract E d url recording_id id_type session zip_path :
  Os.under d zip_path = true ->
  Quiet d (download_and_extract E url recording_id id_type session d zip_path).
Proof.
  intros Hp. unfold download_and_extract. quiet;
    first [ apply Quiet_construct_zip_urls | by apply Quiet_try_zip_urls
          | apply Quiet_cleanup_temp_directory | apply Quiet_extractall ].
Qed.

(** ** The observer of placements *)

Lemma observe_quiet st e : quiet_event e = true -> observe st e = Some st.
Proof. by destruct e. Qed.

Lemma observe_all_app st a b :
  observe_all st (a ++ b)
  = match observe_all st a with
    | Some st' => observe_all st' b
    | None => None
    end.
Proof.
  revert st. induction a as [|e a IH]; intros st; simpl; [done|].
  destruct (observe st e); [apply IH|done].
Qed.

Lemma observe_all_quiet st evs :
  Forall (fun e => quiet_event e = true) evs -> observe_all st evs = Some st.
Proof.
  induction 1 as [|e evs He Hevs IH]; simpl; [done|].
  by rewrite observe_quiet.
Qed.

Lemma observe_transcode st op out ok :
  observe st (EvTranscode op out ok) = Some (after_pass op ok st).
Proof. unfold after_pass. by destruct op, ok. Qed.

Lemma after_pass_moved op ok st : moved (after_pass op ok st) = moved st.
Proof. unfold after_pass. by destruct op, ok. Qed.

Lemma observe_video st e st' :
  observe st e = Some st' -> video_done st' = true ->
  video_done st = true \/ exists p, e = EvTranscode NormalizeVideo p true.
Proof.
  destruct e as [| | | | | | |op out ok| |]; simpl; try (intros [= <-]; by left).
  - destruct op, ok; intros [= <-]; simpl; eauto.
  - destruct (video_done st); [by left|]. simpl. discriminate.
Qed.

Lemma observe_audio st e st' :
  observe st e = Some st' -> audio_done st' = true ->
  audio_done st = true \/ exists p, e = EvTranscode NormalizeAudio p true.
Proof.
  destruct e as [| | | | | | |op out ok| |]; simpl; try (intros [= <-]; by left).
  - destruct op, ok; intros [= <-]; simpl; eauto.
  - destruct (video_done st), (audio_done st); try by left. all: simpl; discriminate.
Qed.

Lemma observe_merge st e st' :
  observe st e = Some st' -> merge_done st' = true ->
  merge_done st = true \/ exists p, e = EvTranscode MergeStreams p true.
Proof.
  destruct e as [| | | | | | |op out ok| |]; simpl; try (intros [= <-]; by left).
  - destruct op, ok; intros [= <-]; simpl; eauto.
  - destruct (video_done st), (audio_done st), (merge_done st); try by left.
    all: simpl; discriminate.
Qed.

(** An accepted move has the three successful passes before it. *)
Lemma observe_all_move st evs st' pre src dst post :
  observe_all st evs = Some st' ->
  evs = pre ++ EvMove src dst :: post ->
  (video_done st = true \/ exists p, EvTranscode NormalizeVideo p true ∈ pre)
  /\ (audio_done st = true \/ exists p, EvTranscode NormalizeAudio p true ∈ pre)
  /\ (merge_done st = true \/ exists p, EvTranscode MergeStreams p true ∈ pre).
Proof.
  intros Hobs ->. revert st Hobs. induction pre as [|e pre IH]; intros st; simpl.
  - destruct (video_done st), (audio_done st), (merge_done st); simpl;
      try discriminate. intros _. by repeat split; left.
  - destruct (observe st e) as [st1|] eqn:He; [|discriminate].
    intros Hobs. destruct (IH st1 Hobs) as (Hv & Ha & Hm).
    repeat split.
    + destruct Hv as [Hv|[p Hp]].
      * destruct (observe_video _ _ _ He Hv) as [?|[p ->]]; [by left|].
        right. exists p. by left.
      * right. exists p. by right.
    + destruct Ha as [Ha|[p Hp]].
      * destruct (observe_audio _ _ _ He Ha) as [?|[p ->]]; [by left|].
        right. exists p. by left.
      * right. exists p. by right.
    + destruct Hm as [Hm|[p Hp]].
      * destruct (observe_merge _ _ _ He Hm) as [?|[p ->]]; [by left|].
        right. exists p. by left.
      * right. exists p. by right.
Qed.

Lemma observe_moved st e st' :
  observe st e = Some st' -> moved st' = (moved st || is_move e).
Proof.
  destruct e as [| | | | | | |op out ok| |]; simpl;
    try (intros [= <-]; by rewrite orb_false_r).
  - destruct op, ok; intros [= <-]; simpl; by rewrite orb_false_r.
  - destruct (_ && _); [|discriminate]. intros [= <-]. simpl. by rewrite orb_true_r.
Qed.

(** The observer remembers whether a move was made. *)
Lemma observe_all_moved st evs st' :
  observe_all st evs = Some st' ->
  moved st' = (moved st || existsb is_move evs).
Proof.
  revert st. induction evs as [|e evs IH]; intros st; simpl.
  - intros [= <-]. by rewrite orb_false_r.
  - destruct (observe st e) as [st1|] eqn:He; [|discriminate].
    intros Hobs. rewrite (IH st1 Hobs), (observe_moved _ _ _ He).
    by rewrite orb_assoc.
Qed.

Lemma reached_refl d w : reached d w w no_progress.
Proof.
  exists []. split; [by rewrite app_nil_r|]. split; [done|]. intros _. apply frame_refl.
Qed.

Lemma reached_quiet d w w1 w2 st :
  reached d w w1 st -> quiet_step d w1 w2 -> reached d w w2 st.
Proof.
  intros (e1 & Ht1 & Ho & Hf1) (e2 & Ht2 & Hq & Hf2). exists (e1 ++ e2).
  split; [by rewrite Ht2, Ht1, app_assoc|]. split.
  - by rewrite observe_all_app, Ho, observe_all_quiet.
  - intros Hm. eapply frame_trans; [by apply Hf1|done].
Qed.

Lemma reached_event d w w1 st st' e w2 :
  reached d w w1 st -> observe st e = Some st' ->
  trace w2 = trace w1 ++ [e] ->
  (moved st' = false -> frame d (fs w1) (fs w2)) ->
  reached d w w2 st'.
Proof.
  intros (e1 & Ht1 & Ho & Hf1) He Ht2 Hf2. exists (e1 ++ [e]).
  split; [by rewrite Ht2, Ht1, app_assoc|]. split.
  - rewrite observe_all_app, Ho. simpl. by rewrite He.
  - intros Hm. eapply frame_trans; [|by apply Hf2].
    apply Hf1. apply observe_moved in He. rewrite Hm in He.
    symmetry in He. by apply orb_false_iff in He as [? _].
Qed.

Lemma outcome_ret d w w1 st (b : bool) :
  reached d w w1 st -> (b = false -> moved st = false) -> outcome d w (ret b w1).
Proof. intros Hr Hb. exists st. split; [done|]. simpl. intros [= ->]. by apply Hb. Qed.

Lemma outcome_raise d w w1 st e : reached d w w1 st -> outcome d w (Raise e, w1).
Proof. intros Hr. exists st. split; [done|]. simpl. discriminate. Qed.

Lemma outcome_bind_quiet d w st {A} (m : M A) (k : A -> M bool) w1 :
  Quiet d m -> reached d w w1 st ->
  (forall a w2, reached d w w2 st -> outcome d w (k a w2)) ->
  outcome d w (bind m k w1).
Proof.
  intros Hq Hr Hk. pose proof (Hq w1) as H1. apply bind_case.
  - intros a w' Hm. rewrite Hm in H1. apply Hk. by eapply reached_quiet.
  - intros e w' Hm. rewrite Hm in H1. eapply outcome_raise. by eapply reached_quiet.
Qed.

Lemma outcome_bind_transcode d w st op out run (k : bool -> M bool) w1 :
  Os.under d out = true -> reached d w w1 st ->
  (forall ok w2, reached d w w2 (after_pass op ok st) -> outcome d w (k ok w2)) ->
  outcome d w (bind (transcode op out run) k w1).
Proof.
  intros Hout Hr Hk. destruct w1 as [m n tr]. unfold transcode. run_prog.
  destruct (run m) as [ok [c|]]; run_prog; apply Hk.
  - eapply reached_event; [exact Hr|apply observe_transcode|done|].
    intros _. by apply frame_insert_under.
  - eapply reached_event; [exact Hr|apply observe_transcode|done|].
    intros _. apply frame_refl.
Qed.

Lemma outcome_bind_move d w st src dst (k : unit -> M bool) w1 :
  reached d w w1 st ->
  video_done st && audio_done st && merge_done st = true ->
  (forall st' w2, reached d w w2 st' -> moved st' = true -> outcome d w (k tt w2)) ->
  outcome d w (bind (emit (EvMove src dst)) k w1).
Proof.
  intros Hr Hall Hk. destruct w1 as [m n tr]. run_prog.
  apply (Hk {| video_done := true; audio_done := true; merge_done := true;
               moved := true |}); [|done].
  eapply reached_event; [exact Hr| |done|discriminate].
  simpl. by rewrite Hall.
Qed.

Lemma outcome_bind_os_update_moved d w st f (k : unit -> M bool) w1 :
  moved st = true -> reached d w w1 st ->
  (forall w2, reached d w w2 st -> outcome d w (k tt w2)) ->
  outcome d w (bind (os_update f) k w1).
Proof.
  intros Hm (evs & Ht & Ho & Hf) Hk. destruct w1 as [m n tr].
  unfold os_update. run_prog. destruct (f m) as [m'|].
  - apply Hk. exists evs. split; [done|]. split; [done|]. congruence.
  - eapply outcome_raise. exists evs. split; [done|]. split; [done|]. congruence.
Qed.

(** ** The orchestrator *)

Lemma quiet_run d {A} (m : M A) w r w' :
  Quiet d m -> m w = (r, w') -> quiet_step d w w'.
Proof. intros Hq Hm. pose proof (Hq w) as H. by rewrite Hm in H. Qed.

Ltac quiet_steps :=
  repeat (eapply outcome_bind_quiet;
          [ first [ apply Quiet_log | apply Quiet_cleanup_temp_directory | apply Quiet_get_fs ]
          | eassumption
          | intros ? ? ? ]).

Lemma two_pass_workflow_outcome E d w w1 st ffmpeg_handler quality
    final_video_path_temp final_video_path_dest :
  Os.under d (Os.join d (str "normalized_video.mkv")) = true ->
  Os.under d (Os.join d (str "normalized_audio.m4a")) = true ->
  Os.under d final_video_path_temp = true ->
  reached d w w1 st -> moved st = false ->
  outcome d w
    (two_pass_workflow E ffmpeg_handler quality d final_video_path_temp
       final_video_path_dest w1).
Proof.
  intros Hv Ha Hf Hr Hm. unfold two_pass_workflow.
  eapply outcome_bind_quiet; [apply Quiet_find_media_streams|exact Hr|].
  intros media_streams w2 Hr2.
  destruct (dict_get (str "screenshare") media_streams) as [video_files|].
  2: { quiet_steps. eapply outcome_ret; [eassumption|done]. }
  cbv zeta. simpl video_path. simpl audio_path.
  eapply outcome_bind_transcode; [exact Hv|exact Hr2|]. intros ok_video w3 Hr3.
  destruct ok_video; simpl negb; cbv iota.
  2: { quiet_steps. eapply outcome_ret; [eassumption|]. by rewrite after_pass_moved. }
  eapply outcome_bind_transcode; [exact Ha|exact Hr3|]. intros ok_audio w4 Hr4.
  destruct ok_audio; simpl negb; cbv iota.
  2: { quiet_steps. eapply outcome_ret; [eassumption|]. by rewrite !after_pass_moved. }
  eapply outcome_bind_transcode; [exact Hf|exact Hr4|]. intros ok_merge w5 Hr5.
  destruct ok_merge.
  2: { quiet_steps. eapply outcome_ret; [eassumption|]. by rewrite !after_pass_moved. }
  quiet_steps.
  eapply outcome_bind_move; [eassumption|reflexivity|].
  intros st' w7 Hr7 Hmoved.
  eapply outcome_bind_os_update_moved; [exact Hmoved|exact Hr7|]. intros w8 Hr8.
  quiet_steps. eapply outcome_ret; [eassumption|done].
Qed.

Lemma has_no_sep_literal_zip file_ops recording_id :
  safe_names file_ops ->
  Py.has_char Os.sep (safe_filename file_ops recording_id ++ str ".zip") = false.
Proof. intros Hsafe. rewrite has_char_app, Hsafe. by vm_compute. Qed.

Lemma process_single_url_outcome E url custom_filename file_ops ffmpeg_handler quality w :
  safe_names file_ops ->
  exists recording_id,
    outcome (temp_output_dir_of file_ops recording_id) w
      (process_single_url E url custom_filename file_ops ffmpeg_handler quality w).
Proof.
  intros Hsafe. unfold process_single_url.
  apply (bind_case _ _ w (fun rw => exists recording_id,
           outcome (temp_output_dir_of file_ops recording_id) w rw)).
  2: { intros e w0 H0. exists []. eapply outcome_raise.
       eapply reached_quiet; [apply reached_refl|].
       eapply quiet_run; [apply Quiet_log|exact H0]. }
  intros [] w0 H0.
  apply (bind_case _ _ w0 (fun rw => exists recording_id,
           outcome (temp_output_dir_of file_ops recording_id) w rw)).
  2: { intros e w1 H1. exists []. eapply outcome_raise.
       eapply reached_quiet; [eapply reached_quiet; [apply reached_refl|]|].
       - eapply quiet_run; [apply Quiet_log|exact H0].
       - eapply quiet_run; [apply Quiet_setup_session|exact H1]. }
  intros session w1 H1.
  apply (bind_case _ _ w1 (fun rw => exists recording_id,
           outcome (temp_output_dir_of file_ops recording_id) w rw)).
  all: intros resolved w2 H2.
  all: assert (forall d, reached d w w2 no_progress) as Hr
    by (intros d;
        eapply reached_quiet;
          [eapply reached_quiet; [eapply reached_quiet; [apply reached_refl|]|]|];
          [ eapply quiet_run; [apply Quiet_log|exact H0]
          | eapply quiet_run; [apply Quiet_setup_session|exact H1]
          | eapply quiet_run; [apply Quiet_get_id_and_type|exact H2] ]).
  2: { exists []. eapply outcome_raise. apply Hr. }
  destruct resolved as [[[|c recording_id'] id_type]|].
  1, 3: exists []; pose proof (Hr (temp_output_dir_of file_ops [])) as Hr0;
        quiet_steps; eapply outcome_ret; [eassumption|done].
  set (recording_id := c :: recording_id').
  exists recording_id. cbv zeta.
  set (d := temp_output_dir_of file_ops recording_id).
  specialize (Hr d).
  eapply outcome_bind_quiet; [by apply Quiet_emit|exact Hr|]. intros [] w3 Hr3.
  eapply outcome_bind_quiet;
    [apply Quiet_os_update; intros m m'; apply frame_makedirs|exact Hr3|].
  intros [] w4 Hr4.
  quiet_steps.
  match goal with |- outcome _ _ ((if ?b then _ else _) _) => destruct b end.
  { quiet_steps. eapply outcome_ret; [eassumption|done]. }
  eapply outcome_bind_quiet; [|eassumption|].
  { apply Quiet_download_and_extract. apply under_temp; [done|].
    by apply has_no_sep_literal_zip. }
  intros continue w7 Hr7. destruct continue.
  - eapply two_pass_workflow_outcome; [..|exact Hr7|done].
    + apply under_temp; [done|by vm_compute].
    + apply under_temp; [done|by vm_compute].
    + apply under_temp; [done|apply Hsafe].
  - eapply outcome_ret; [eassumption|done].
Qed.

Lemma safe_names_scenario : safe_names Scenario.file_ops.
Proof.
  intros s. unfold Scenario.file_ops, Py.has_char. cbn [safe_filename].
  induction s as [|c s IH]; [done|].
  cbn [map existsb]. rewrite IH, orb_false_r.
  destruct (Ascii.eqb c "/") eqn:Hc; [done|].
  rewrite Ascii.eqb_sym. exact Hc.
Qed.

(** C6. In every run of a job, a move into the destination is made only
    after the video pass, the audio pass and the merge have each reported
    success earlier in the run; a run that reports failure has made no
    move; and a run without a move leaves every regular file outside the
    working directory of the job, hence every file that lies directly in
    the destination directory, as it was (the helper for file names is
    assumed not to produce path separators). *)
Theorem placement_only_after_passes E url custom_filename file_ops ffmpeg_handler quality w :
  safe_names file_ops ->
  exists evs recording_id,
    trace (process_single_url E url custom_filename file_ops ffmpeg_handler quality w).2
      = trace w ++ evs
    /\ (forall pre src dst post,
          evs = pre ++ EvMove src dst :: post ->
          (exists p, EvTranscode NormalizeVideo p true ∈ pre)
          /\ (exists p, EvTranscode NormalizeAudio p true ∈ pre)
          /\ (exists p, EvTranscode MergeStreams p true ∈ pre))
    /\ ((process_single_url E url custom_filename file_ops ffmpeg_handler quality w).1
          = Ok false -> existsb is_move evs = false)
    /\ (existsb is_move evs = false ->
        frame (temp_output_dir_of file_ops recording_id) (fs w)
          (fs (process_single_url E url custom_filename file_ops ffmpeg_handler
                 quality w).2)).
Proof.
  intros Hsafe.
  destruct (process_single_url_outcome E url custom_filename file_ops ffmpeg_handler
              quality w Hsafe) as (recording_id & st & (evs & Ht & Ho & Hf) & Hfail).
  exists evs, recording_id. split; [exact Ht|].
  pose proof (observe_all_moved _ _ _ Ho) as Hmoved. simpl in Hmoved.
  split; [|split].
  - intros pre src dst post Hevs.
    destruct (observe_all_move _ _ _ _ _ _ _ Ho Hevs) as ([?|?] & [?|?] & [?|?]);
      done.
  - intros Hr. rewrite <- Hmoved. by apply Hfail.
  - intros Hnone. apply Hf. by rewrite Hmoved.
Qed.

Lemma placement_only_after_passes_witness :
  exists evs recording_id,
    trace (process_single_url Scenario.env Scenario.meeting_url None Scenario.file_ops
             Scenario.ffmpeg_handler_failing Scenario.quality Scenario.world_fresh).2
      = trace Scenario.world_fresh ++ evs
    /\ (forall pre src dst post,
          evs = pre ++ EvMove src dst :: post ->
          (exists p, EvTranscode NormalizeVideo p true ∈ pre)
          /\ (exists p, EvTranscode NormalizeAudio p true ∈ pre)
          /\ (exists p, EvTranscode MergeStreams p true ∈ pre))
    /\ ((process_single_url Scenario.env Scenario.meeting_url None Scenario.file_ops
           Scenario.ffmpeg_handler_failing Scenario.quality Scenario.world_fresh).1
          = Ok false -> existsb is_move evs = false)
    /\ (existsb is_move evs = false ->
        frame (temp_output_dir_of Scenario.file_ops recording_id) (fs Scenario.world_fresh)
          (fs (process_single_url Scenario.env Scenario.meeting_url None Scenario.file_ops
                 Scenario.ffmpeg_handler_failing Scenario.quality Scenario.world_fresh).2)).
Proof.
  exact (placement_only_after_passes Scenario.env Scenario.meeting_url None
           Scenario.file_ops Scenario.ffmpeg_handler_failing Scenario.quality
           Scenario.world_fresh safe_names_scenario).
Defined.

(** ** The archive fetcher *)

Lemma effects_app a b : effects (a ++ b) = effects a ++ effects b.
Proof. apply List.filter_app. Qed.

Lemma effects_none logs :
  Forall (fun e => is_effect e = false) logs -> effects logs = [].
Proof.
  induction 1 as [|e logs He Hl IH]; [done|]. simpl. by rewrite He.
Qed.

Lemma effects_chunk_events p cs : effects (chunk_events p cs) = map (EvWrite p) cs.
Proof. induction cs as [|c cs IH]; [done|]. simpl. by rewrite <- IH. Qed.

Lemma write_chunks_run p cs m n tr c0 :
  m !! p = Some (Os.File c0) ->
  write_chunks p cs {| fs := m; requests := n; trace := tr |}
  = (Ok tt, {| fs := <[p := Os.File (c0 ++ concat cs)]> m; requests := n;
               trace := tr ++ chunk_events p cs |}).
Proof.
  revert m tr c0. induction cs as [|chunk rest IH]; intros m tr c0 Hp.
  - simpl. unfold ret. rewrite !app_nil_r. by rewrite insert_id.
  - cbn [write_chunks]. run_prog. unfold Os.append. rewrite Hp.
    erewrite IH by apply lookup_insert_eq.
    rewrite insert_insert_eq. simpl. by rewrite <- !app_assoc.
Qed.

(** A candidate that answers with an HTML content type is rejected, after
    the request alone: nothing is opened or written. *)
Lemma download_zip_file_html E zip_url output_path session w r :
  http E session (requests w) zip_url = Some r -> is_html r = true ->
  download_zip_file E zip_url output_path session w
  = (Ok false, {| fs := fs w; requests := S (requests w);
                  trace := trace w ++ EvHttpGet zip_url :: rejection_log r |}).
Proof.
  intros Hr Hh. destruct w as [m n tr]. simpl in Hr.
  unfold download_zip_file, is_html, rejection_log in *. run_prog. rewrite Hr.
  destruct (status_code r =? 200)%Z; [|done].
  rewrite Hh. by rewrite <- app_assoc.
Qed.

Lemma effects_rejection_log r : effects (rejection_log r) = [].
Proof. unfold rejection_log. by destruct (_ =? _)%Z. Qed.

Lemma try_zip_urls_cons E zip_url rest zip_path session w :
  try_zip_urls E (zip_url :: rest) zip_path session w
  = match download_zip_file E zip_url zip_path session
            (logged INFO (str "Trying download from: " ++ zip_url) w) with
    | (Ok true, w') => (Ok true, w')
    | (Ok false, w') => try_zip_urls E rest zip_path session w'
    | (Raise e, w') => (Raise e, w')
    end.
Proof.
  cbn [try_zip_urls]. unfold bind, log, emit, logged, ret.
  by destruct (download_zip_file _ _ _ _ _) as [[[]|] ?].
Qed.

(** A candidate that answers 200 with another content type, a sound length
    header and a complete body is streamed to the output path. *)
Lemma download_zip_file_archive E zip_url output_path session w r m1 :
  http E session (requests w) zip_url = Some r ->
  status_code r = 200%Z -> is_html r = false ->
  length_header_ok r = true -> stream_ok r = true ->
  Os.open_w output_path (fs w) = Some m1 ->
  download_zip_file E zip_url output_path session w
  = (Ok true,
     {| fs := <[output_path := Os.File (concat (chunks r))]> (fs w);
        requests := S (requests w);
        trace := trace w ++ EvHttpGet zip_url :: EvOpenWrite output_path
                   :: chunk_events output_path (chunks r) |}).
Proof.
  intros Hr Hs Hh Hl Hok Hopen. destruct w as [m n tr]. simpl in Hr, Hopen.
  assert (m1 = <[output_path := Os.File []]> m) as ->.
  { unfold Os.open_w in Hopen. destruct (_ || _); [discriminate|]. by injection Hopen. }
  unfold download_zip_file, is_html, length_header_ok in *. run_prog.
  rewrite Hr, Hs, Hh. change (200 =? 200)%Z with true.
  destruct (content_length r) as [h|].
  1: apply bool_decide_eq_true in Hl as [total ->].
  all: run_prog; rewrite Hopen; run_prog;
    erewrite write_chunks_run by apply lookup_insert_eq;
    rewrite Hok, insert_insert_eq; simpl; by rewrite <- !app_assoc.
Qed.

(** C5. When the first two candidates answer with an HTML content type
    (whatever their status) and the third answers 200 with another content
    type and a complete body, the fetch succeeds with the third candidate:
    three requests are made, the destination path is opened only after the
    third request, and it ends up holding exactly the body of the third
    response; nothing of the first two responses is written. *)
Theorem fetch_skips_html_candidates
    E session zip_path w zip_url1 zip_url2 zip_url3 rest r1 r2 r3 :
  http E session (requests w) zip_url1 = Some r1 -> is_html r1 = true ->
  http E session (S (requests w)) zip_url2 = Some r2 -> is_html r2 = true ->
  http E session (S (S (requests w))) zip_url3 = Some r3 ->
  status_code r3 = 200%Z -> is_html r3 = false ->
  length_header_ok r3 = true -> stream_ok r3 = true ->
  is_Some (Os.open_w zip_path (fs w)) ->
  exists w' evs,
    try_zip_urls E (zip_url1 :: zip_url2 :: zip_url3 :: rest) zip_path session w
      = (Ok true, w')
    /\ fs w' = <[zip_path := Os.File (concat (chunks r3))]> (fs w)
    /\ requests w' = 3 + requests w
    /\ trace w' = trace w ++ evs
    /\ effects evs
       = [EvHttpGet zip_url1; EvHttpGet zip_url2; EvHttpGet zip_url3; EvOpenWrite zip_path]
         ++ map (EvWrite zip_path) (chunks r3).
Proof.
  intros H1 Hh1 H2 Hh2 H3 Hs3 Hh3 Hl3 Hok3 [m1 Hopen].
  rewrite try_zip_urls_cons.
  rewrite (download_zip_file_html E zip_url1 zip_path session (logged _ _ w) r1 H1 Hh1).
  rewrite try_zip_urls_cons.
  match goal with
  | |- context [download_zip_file E zip_url2 zip_path session ?w0] =>
      rewrite (download_zip_file_html E zip_url2 zip_path session w0 r2 H2 Hh2)
  end.
  rewrite try_zip_urls_cons.
  match goal with
  | |- context [download_zip_file E zip_url3 zip_path session ?w0] =>
      rewrite (download_zip_file_archive E zip_url3 zip_path session w0 r3 m1
                 H3 Hs3 Hh3 Hl3 Hok3 Hopen)
  end.
  eexists _, _. split; [reflexivity|]. split; [reflexivity|]. split; [reflexivity|].
  split.
  - cbn [trace logged]. rewrite <- !app_assoc. reflexivity.
  - cbn [app]. unfold effects. cbn [List.filter is_effect].
    rewrite List.filter_app. fold (effects (rejection_log r1)).
    rewrite effects_rejection_log. cbn [app List.filter is_effect].
    rewrite List.filter_app. fold (effects (rejection_log r2)).
    rewrite effects_rejection_log. cbn [app List.filter is_effect].
    fold (effects (chunk_events zip_path (chunks r3))).
    by rewrite effects_chunk_events.
Qed.

Lemma fetch_skips_html_candidates_witness :
  exists w' evs,
    try_zip_urls Scenario.env
      [str "https://h/12345/output/12345.zip?download=zip";
       str "https://h/12345/output/output.zip?download=zip";
       str "https://h/p12345/output/12345.zip?download=zip";
       str "https://h/p12345/output/output.zip?download=zip"]
      Scenario.zip_path Scenario.session Scenario.world_fetching
      = (Ok true, w')
    /\ fs w' = <[Scenario.zip_path := Os.File (concat (chunks Scenario.archive))]>
                 (fs Scenario.world_fetching)
    /\ requests w' = 3 + requests Scenario.world_fetching
    /\ trace w' = trace Scenario.world_fetching ++ evs
    /\ effects evs
       = [EvHttpGet (str "https://h/12345/output/12345.zip?download=zip");
          EvHttpGet (str "https://h/12345/output/output.zip?download=zip");
          EvHttpGet (str "https://h/p12345/output/12345.zip?download=zip");
          EvOpenWrite Scenario.zip_path]
         ++ map (EvWrite Scenario.zip_path) (chunks Scenario.archive).
Proof.
  apply (fetch_skips_html_candidates Scenario.env Scenario.session Scenario.zip_path
           Scenario.world_fetching _ _ _ _
           Scenario.login_page Scenario.login_page Scenario.archive).
  - reflexivity.
  - vm_compute. reflexivity.
  - reflexivity.
  - vm_compute. reflexivity.
  - reflexivity.
  - reflexivity.
  - vm_compute. reflexivity.
  - vm_compute. reflexivity.
  - reflexivity.
  - eexists. vm_compute. reflexivity.
Defined.

(** ** The start of a job *)

Lemma setup_session_run cookie_str w session :
  (setup_session cookie_str w).1 = Ok session ->
  forall w', fs w' = fs w -> setup_session cookie_str w' = (Ok session, w').
Proof.
  intros Hs [m' n' tr'] Hfs. destruct w as [m n tr]. simpl in Hfs. subst m'.
  unfold setup_session in *. destruct cookie_str as [[|c cs]|]; run_prog.
  1, 3: congruence.
  revert Hs.
  match goal with
  | |- context [match ?x with Some _ => _ | None => _ end] => destruct x as [[content|]|]
  end; run_prog; congruence.
Qed.

Lemma get_id_and_type_requests E url session w w' :
  requests w' = requests w ->
  (get_id_and_type E url session w').1 = (get_id_and_type E url session w).1.
Proof. intros H. by rewrite !get_id_and_type_result, H. Qed.

Ltac close_logs :=
  eexists; split; [|rewrite <- !app_assoc; simpl; reflexivity]; by repeat constructor.

Lemma get_id_and_type_run E url session w :
  exists logs,
    Forall (fun e => is_effect e = false) logs
    /\ get_id_and_type E url session w
       = ((get_id_and_type E url session w).1,
          {| fs := fs w; requests := S (requests w);
             trace := trace w ++ EvLog INFO (str "Analyzing URL: " ++ url)
                        :: EvHttpGet url :: logs |}).
Proof.
  destruct w as [m n tr]. unfold get_id_and_type. run_prog.
  destruct (http E session n url) as [r|].
  - destruct ((400 <=? status_code r)%Z && (status_code r <? 600)%Z).
    + destruct (Url.urlparse url) as [parsed|e]; [|close_logs].
      destruct (Re.re_search false path_pattern _); close_logs.
    + destruct (first_match patterns (text r)); [close_logs|].
      destruct (Url.urlparse url) as [parsed|e]; [|close_logs].
      destruct (Re.re_search false path_pattern _); close_logs.
  - destruct (Url.urlparse url) as [parsed|e]; [|close_logs].
    destruct (Re.re_search false path_pattern _); close_logs.
Qed.

Lemma mkdirs_lookup (dirs : list pystr) (m : gmap pystr Os.node) (q : pystr) :
  foldr (fun d acc => <[d := Os.Dir]> acc) m dirs !! q
  = if bool_decide (q ∈ dirs) then Some Os.Dir else m !! q.
Proof.
  induction dirs as [|d dirs IH]; simpl; [done|].
  rewrite lookup_insert. destruct (decide (d = q)) as [->|Hne].
  - by rewrite bool_decide_eq_true_2 by left.
  - rewrite IH. destruct (bool_decide (q ∈ dirs)) eqn:Hq.
    + apply bool_decide_eq_true in Hq. by rewrite bool_decide_eq_true_2 by (by right).
    + apply bool_decide_eq_false in Hq. rewrite bool_decide_eq_false_2; [done|].
      intros [->|?]%elem_of_cons; done.
Qed.

Lemma makedirs_isdir p m m' : Os.makedirs p m = Some m' -> Os.isdir m' p = true.
Proof.
  unfold Os.makedirs. destruct (existsb _ _); [discriminate|]. intros [= <-].
  unfold Os.isdir. rewrite mkdirs_lookup.
  rewrite bool_decide_eq_true_2; [done|]. apply elem_of_app. right. by left.
Qed.

Lemma makedirs_exists p m m' q :
  Os.makedirs p m = Some m' -> Os.exists_ m q = true -> Os.exists_ m' q = true.
Proof.
  unfold Os.makedirs. destruct (existsb _ _); [discriminate|]. intros [= <-].
  unfold Os.exists_. rewrite mkdirs_lookup. intros H.
  destruct (bool_decide (q ∈ _)); [|done]. by apply bool_decide_eq_true_2.
Qed.

Lemma under_self d : Os.under d d = true.
Proof. unfold Os.under. by rewrite bool_decide_eq_true_2. Qed.

Lemma rmtree_gone d m : Os.exists_ (Os.rmtree d m) d = false.
Proof.
  unfold Os.exists_, Os.rmtree. apply bool_decide_eq_false_2.
  intros [n Hn]. apply map_lookup_filter_Some in Hn as [_ Hn]. simpl in Hn.
  by rewrite under_self in Hn.
Qed.

Ltac run_goal :=
  cbv beta iota zeta delta
    [bind catch ret raise lift log emit get_fs put_fs os_update session_get
     raise_for_status any_exception is_OSError is_BadZipFile
     fs requests trace negb].

(** A job whose session is set up, whose identifier resolves and whose
    working directory can be created reaches the existence check after one
    request, the page fetch of the resolver, and the creation of the
    working directory. *)
Lemma process_single_url_resolved
    E url custom_filename file_ops ffmpeg_handler quality w session c recording_id' id_type m' :
  let recording_id := c :: recording_id' in
  let temp_output_dir := temp_output_dir_of file_ops recording_id in
  (setup_session (cookies file_ops) w).1 = Ok session ->
  (get_id_and_type E url session w).1 = Ok (Some (recording_id, id_type)) ->
  Os.makedirs temp_output_dir (fs w) = Some m' ->
  exists evs,
    effects evs = [EvHttpGet url; EvMakedirs temp_output_dir]
    /\ process_single_url E url custom_filename file_ops ffmpeg_handler quality w
       = (if Os.exists_ m' (final_video_path_dest_of file_ops custom_filename recording_id)
          then
            log WARNING
              (str "Output file '"
                 ++ output_filename_of file_ops custom_filename recording_id
                 ++ str "' already exists in the destination. Skipping.") ;;;
            cleanup_temp_directory E temp_output_dir ;;;
            ret true
          else
            continue <-
              download_and_extract E url recording_id id_type session temp_output_dir
                (zip_path_of file_ops recording_id) ;;
            if continue then
              two_pass_workflow E ffmpeg_handler quality temp_output_dir
                (final_video_path_temp_of file_ops custom_filename recording_id)
                (final_video_path_dest_of file_ops custom_filename recording_id)
            else ret false)
         {| fs := m'; requests := S (requests w); trace := trace w ++ evs |}.
Proof.
  intros recording_id temp_output_dir Hs Hr Hm.
  subst recording_id temp_output_dir.
  destruct w as [m n tr]. simpl in Hm.
  unfold process_single_url. run_goal.
  rewrite (setup_session_run _ _ _ Hs) by reflexivity.
  match goal with
  | |- context [get_id_and_type E url session ?w1] =>
      destruct (get_id_and_type_run E url session w1) as (logs & Hlogs & ->);
      rewrite (get_id_and_type_requests E url session
                 {| fs := m; requests := n; trace := tr |} w1 eq_refl), Hr
  end.
  run_goal. rewrite Hm. run_goal.
  exists (EvLog INFO (str "--- Processing URL: " ++ url ++ str " ---")
            :: EvLog INFO (str "Analyzing URL: " ++ url) :: EvHttpGet url
            :: logs
            ++ [EvMakedirs (temp_output_dir_of file_ops (c :: recording_id'));
                EvLog INFO
                  (str "Final video will be named: '"
                     ++ output_filename_of file_ops custom_filename (c :: recording_id')
                     ++ str "'")]).
  split.
  - unfold effects. cbn [List.filter is_effect]. rewrite List.filter_app.
    fold (effects logs). by rewrite effects_none.
  - f_equal. f_equal. rewrite <- !app_assoc. reflexivity.
Qed.

(** The run of a job whose destination file is already there. *)
Lemma skip_existing_run
    E url custom_filename file_ops ffmpeg_handler quality w session c recording_id' id_type m' :
  let recording_id := c :: recording_id' in
  let temp_output_dir := temp_output_dir_of file_ops recording_id in
  (setup_session (cookies file_ops) w).1 = Ok session ->
  (get_id_and_type E url session w).1 = Ok (Some (recording_id, id_type)) ->
  Os.makedirs temp_output_dir (fs w) = Some m' ->
  Os.exists_ (fs w) (final_video_path_dest_of file_ops custom_filename recording_id) = true ->
  exists evs,
    effects evs = [EvHttpGet url; EvMakedirs temp_output_dir; EvRmtree temp_output_dir]
    /\ process_single_url E url custom_filename file_ops ffmpeg_handler quality w
       = (Ok true,
          {| fs := if rmtree_ok E temp_output_dir then Os.rmtree temp_output_dir m' else m';
             requests := S (requests w);
             trace := trace w ++ evs |}).
Proof.
  intros recording_id temp_output_dir Hs Hr Hm Hd.
  destruct (process_single_url_resolved E url custom_filename file_ops ffmpeg_handler
              quality w session c recording_id' id_type m' Hs Hr Hm)
    as (evs0 & Heff & ->).
  subst recording_id temp_output_dir.
  rewrite (makedirs_exists _ _ _ _ Hm Hd).
  unfold cleanup_temp_directory. run_goal.
  rewrite (makedirs_isdir _ _ _ Hm).
  destruct (rmtree_ok E (temp_output_dir_of file_ops (c :: recording_id'))); run_goal.
  - eexists. split; [|f_equal; f_equal; rewrite <- !app_assoc; reflexivity].
    rewrite effects_app, Heff. reflexivity.
  - eexists. split; [|f_equal; f_equal; rewrite <- !app_assoc; reflexivity].
    rewrite effects_app, Heff. reflexivity.
Qed.

(** C1 (as stated, refuted). The finished video of an earlier run is in
    place when the job starts; the job still sends one request, the page
    fetch that resolves the identifier from which the destination name is
    derived. *)
Lemma skip_existing_still_fetches_page :
  Os.exists_ (fs Scenario.world_done) (str "/dl/recording_12345.mp4") = true
  /\ (process_single_url Scenario.env Scenario.meeting_url None Scenario.file_ops
        Scenario.ffmpeg_handler Scenario.quality Scenario.world_done).1 = Ok true
  /\ List.filter is_http_get
       (trace (process_single_url Scenario.env Scenario.meeting_url None Scenario.file_ops
                 Scenario.ffmpeg_handler Scenario.quality Scenario.world_done).2)
     = [EvHttpGet Scenario.meeting_url]
  /\ requests (process_single_url Scenario.env Scenario.meeting_url None Scenario.file_ops
                 Scenario.ffmpeg_handler Scenario.quality Scenario.world_done).2 = 1.
Proof. repeat split; vm_compute; reflexivity. Qed.

(** C1 (as amended). For a job whose session is set up, whose identifier
    resolves, whose working directory can be created and whose destination
    file already exists, the run has exactly three effects, in this order:
    one network request, the page fetch of the resolver; the creation of
    the working directory; its removal.  No archive candidate is probed,
    nothing is downloaded or unpacked, the transcoder is not called, and
    the working directory is gone afterwards when the operating system
    lets it be removed. *)
Theorem skip_existing_effects
    E url custom_filename file_ops ffmpeg_handler quality w session c recording_id' id_type m' :
  let recording_id := c :: recording_id' in
  let temp_output_dir := temp_output_dir_of file_ops recording_id in
  let rw := process_single_url E url custom_filename file_ops ffmpeg_handler quality w in
  (setup_session (cookies file_ops) w).1 = Ok session ->
  (get_id_and_type E url session w).1 = Ok (Some (recording_id, id_type)) ->
  Os.makedirs temp_output_dir (fs w) = Some m' ->
  Os.exists_ (fs w) (final_video_path_dest_of file_ops custom_filename recording_id) = true ->
  (exists evs,
     trace rw.2 = trace w ++ evs
     /\ effects evs = [EvHttpGet url; EvMakedirs temp_output_dir; EvRmtree temp_output_dir])
  /\ requests rw.2 = S (requests w)
  /\ (rmtree_ok E temp_output_dir = true -> Os.exists_ (fs rw.2) temp_output_dir = false).
Proof.
  intros recording_id temp_output_dir rw Hs Hr Hm Hd.
  destruct (skip_existing_run E url custom_filename file_ops ffmpeg_handler quality w
              session c recording_id' id_type m' Hs Hr Hm Hd) as (evs & Heff & Hrun).
  subst rw recording_id temp_output_dir. rewrite Hrun. cbn [fst snd fs requests trace].
  split; [by exists evs|]. split; [done|].
  intros ->. apply rmtree_gone.
Qed.

Lemma skip_existing_effects_witness :
  (exists evs,
     trace (process_single_url Scenario.env Scenario.meeting_url None Scenario.file_ops
              Scenario.ffmpeg_handler Scenario.quality Scenario.world_done).2
       = trace Scenario.world_done ++ evs
     /\ effects evs
        = [EvHttpGet Scenario.meeting_url;
           EvMakedirs (temp_output_dir_of Scenario.file_ops (str "12345"));
           EvRmtree (temp_output_dir_of Scenario.file_ops (str "12345"))])
  /\ requests (process_single_url Scenario.env Scenario.meeting_url None Scenario.file_ops
                 Scenario.ffmpeg_handler Scenario.quality Scenario.world_done).2 = 1
  /\ Os.exists_
       (fs (process_single_url Scenario.env Scenario.meeting_url None Scenario.file_ops
              Scenario.ffmpeg_handler Scenario.quality Scenario.world_done).2)
       (temp_output_dir_of Scenario.file_ops (str "12345")) = false.
Proof.
  edestruct (skip_existing_effects Scenario.env Scenario.meeting_url None Scenario.file_ops
               Scenario.ffmpeg_handler Scenario.quality Scenario.world_done
               Scenario.session "1" (str "2345") (str "sco-id"))
    as (H1 & H2 & H3).
  - vm_compute. reflexivity.
  - vm_compute. reflexivity.
  - vm_compute. reflexivity.
  - vm_compute. reflexivity.
  - split; [exact H1|]. split; [exact H2|]. apply H3. reflexivity.
Defined.

(** C10. For a job whose session is set up, whose identifier resolves,
    whose working directory can be created and whose destination file
    already exists, [process_single_url] returns [True]; it does so after
    cleaning up the working directory that it created before the check,
    which is gone afterwards when the operating system lets it be
    removed. *)
Theorem skip_existing_reports_success
    E url custom_filename file_ops ffmpeg_handler quality w session c recording_id' id_type m' :
  let recording_id := c :: recording_id' in
  let temp_output_dir := temp_output_dir_of file_ops recording_id in
  let rw := process_single_url E url custom_filename file_ops ffmpeg_handler quality w in
  (setup_session (cookies file_ops) w).1 = Ok session ->
  (get_id_and_type E url session w).1 = Ok (Some (recording_id, id_type)) ->
  Os.makedirs temp_output_dir (fs w) = Some m' ->
  Os.exists_ (fs w) (final_video_path_dest_of file_ops custom_filename recording_id) = true ->
  rw.1 = Ok true
  /\ fs rw.2 = (if rmtree_ok E temp_output_dir then Os.rmtree temp_output_dir m' else m')
  /\ Os.isdir m' temp_output_dir = true
  /\ (rmtree_ok E temp_output_dir = true -> Os.exists_ (fs rw.2) temp_output_dir = false).
Proof.
  intros recording_id temp_output_dir rw Hs Hr Hm Hd.
  destruct (skip_existing_run E url custom_filename file_ops ffmpeg_handler quality w
              session c recording_id' id_type m' Hs Hr Hm Hd) as (evs & Heff & Hrun).
  subst rw recording_id temp_output_dir. rewrite Hrun. cbn [fst snd fs requests trace].
  split; [done|]. split; [done|].
  split; [by eapply makedirs_isdir|]. intros ->. apply rmtree_gone.
Qed.

Lemma skip_existing_reports_success_witness :
  (process_single_url Scenario.env Scenario.meeting_url None Scenario.file_ops
     Scenario.ffmpeg_handler Scenario.quality Scenario.world_done).1 = Ok true
  /\ Os.exists_
       (fs (process_single_url Scenario.env Scenario.meeting_url None Scenario.file_ops
              Scenario.ffmpeg_handler Scenario.quality Scenario.world_done).2)
       (temp_output_dir_of Scenario.file_ops (str "12345")) = false.
Proof.
  edestruct (skip_existing_reports_success Scenario.env Scenario.meeting_url None
               Scenario.file_ops Scenario.ffmpeg_handler Scenario.quality
               Scenario.world_done Scenario.session "1" (str "2345") (str "sco-id"))
    as (H1 & _ & _ & H3).
  - vm_compute. reflexivity.
  - vm_compute. reflexivity.
  - vm_compute. reflexivity.
  - vm_compute. reflexivity.
  - split; [exact H1|]. apply H3. reflexivity.
Defined.

(** ** Reuse of a downloaded archive *)

(** C7 (as stated, refuted). An earlier run left the archive in the
    working directory without unpacking it.  The job does not fetch, and
    it does not extract either: no extraction event occurs, the classifier
    finds no stream in the directory, and the job fails. *)
Lemma reuse_does_not_extract :
  Os.exists_ (fs Scenario.world_partial) Scenario.zip_path = true
  /\ existsb is_extract
       (trace (process_single_url Scenario.env Scenario.meeting_url None Scenario.file_ops
                 Scenario.ffmpeg_handler Scenario.quality Scenario.world_partial).2)
     = false
  /\ (process_single_url Scenario.env Scenario.meeting_url None Scenario.file_ops
        Scenario.ffmpeg_handler Scenario.quality Scenario.world_partial).1 = Ok false.
Proof. repeat split; vm_compute; reflexivity. Qed.

(** C7 (as amended). For a job whose session is set up, whose identifier
    resolves, whose destination file does not exist and whose working
    directory already holds the archive file, both the fetch and the
    extraction are skipped with a warning: up to the classification the
    only effects of the run are the page fetch of the resolver and the
    creation of the working directory, the last record is the warning, and
    the job goes on with the two-pass workflow, whose first step is the
    classification, on the working directory as it is. *)
Theorem reuse_skips_fetch_and_extraction
    E url custom_filename file_ops ffmpeg_handler quality w session c recording_id' id_type m' :
  let recording_id := c :: recording_id' in
  let temp_output_dir := temp_output_dir_of file_ops recording_id in
  (setup_session (cookies file_ops) w).1 = Ok session ->
  (get_id_and_type E url session w).1 = Ok (Some (recording_id, id_type)) ->
  Os.makedirs temp_output_dir (fs w) = Some m' ->
  Os.exists_ m' (final_video_path_dest_of file_ops custom_filename recording_id) = false ->
  Os.exists_ (fs w) (zip_path_of file_ops recording_id) = true ->
  exists evs,
    effects evs = [EvHttpGet url; EvMakedirs temp_output_dir]
    /\ last evs
       = Some (EvLog WARNING
                 (str "ZIP file already exists. Skipping download and extraction."))
    /\ process_single_url E url custom_filename file_ops ffmpeg_handler quality w
       = two_pass_workflow E ffmpeg_handler quality temp_output_dir
           (final_video_path_temp_of file_ops custom_filename recording_id)
           (final_video_path_dest_of file_ops custom_filename recording_id)
           {| fs := m'; requests := S (requests w); trace := trace w ++ evs |}.
Proof.
  intros recording_id temp_output_dir Hs Hr Hm Hd Hz.
  destruct (process_single_url_resolved E url custom_filename file_ops ffmpeg_handler
              quality w session c recording_id' id_type m' Hs Hr Hm)
    as (evs0 & Heff & ->).
  subst recording_id temp_output_dir.
  rewrite Hd. unfold download_and_extract. run_goal.
  rewrite (makedirs_exists _ _ _ _ Hm Hz). run_goal.
  exists (evs0 ++ [EvLog WARNING
                     (str "ZIP file already exists. Skipping download and extraction.")]).
  split; [|split].
  - rewrite effects_app, Heff. reflexivity.
  - apply last_snoc.
  - f_equal. f_equal. by rewrite <- app_assoc.
Qed.

Lemma reuse_skips_fetch_and_extraction_witness :
  exists evs,
    effects evs
    = [EvHttpGet Scenario.meeting_url;
       EvMakedirs (temp_output_dir_of Scenario.file_ops (str "12345"))]
    /\ last evs
       = Some (EvLog WARNING
                 (str "ZIP file already exists. Skipping download and extraction."))
    /\ process_single_url Scenario.env Scenario.meeting_url None Scenario.file_ops
         Scenario.ffmpeg_handler Scenario.quality Scenario.world_partial
       = two_pass_workflow Scenario.env Scenario.ffmpeg_handler Scenario.quality
           (temp_output_dir_of Scenario.file_ops (str "12345"))
           (final_video_path_temp_of Scenario.file_ops None (str "12345"))
           (final_video_path_dest_of Scenario.file_ops None (str "12345"))
           {| fs := fs Scenario.world_partial; requests := 1;
              trace := trace Scenario.world_partial ++ evs |}.
Proof.
  apply (reuse_skips_fetch_and_extraction Scenario.env Scenario.meeting_url None
           Scenario.file_ops Scenario.ffmpeg_handler Scenario.quality
           Scenario.world_partial Scenario.session "1" (str "2345") (str "sco-id")
           (fs Scenario.world_partial)).
  - vm_compute. reflexivity.
  - vm_compute. reflexivity.
  - vm_compute. reflexivity.
  - vm_compute. reflexivity.
  - vm_compute. reflexivity.
Defined.

(** ** The exit status of the program *)

Lemma run_main_single_url E args new_file_ops ffmpeg_handler w :
  arg_url args <> [] ->
  (run_main E args new_file_ops (Some ffmpeg_handler) w).1
  = match (process_single_url E (arg_url args) (arg_output args)
             (with_cookies new_file_ops (arg_cookies args)) ffmpeg_handler
             (arg_quality args) (logged INFO banner w)).1 with
    | Ok _ => 0%Z
    | Raise _ => 1%Z
    end.
Proof.
  intros Hurl. unfold run_main, main, with_cookies, logged, banner.
  destruct (arg_url args) as [|c u] eqn:Hu; [done|]. run_goal.
  by destruct (process_single_url _ _ _ _ _ _ _) as [[b|e] w'].
Qed.

(** C8 (as stated, refuted). A single-URL run whose job fails: the URL has
    no path and the server does not answer, so no identifier is resolved
    and [process_single_url] returns [False]; [main] drops that result and
    the program ends with status 0. *)
Lemma failed_job_exits_with_success :
  (process_single_url Scenario.env_offline (arg_url Scenario.args_unresolvable)
     (arg_output Scenario.args_unresolvable)
     (with_cookies Scenario.file_ops (arg_cookies Scenario.args_unresolvable))
     Scenario.ffmpeg_handler (arg_quality Scenario.args_unresolvable)
     (logged INFO banner Scenario.world_fresh)).1 = Ok false
  /\ (run_main Scenario.env_offline Scenario.args_unresolvable Scenario.file_ops
        (Some Scenario.ffmpeg_handler) Scenario.world_fresh).1 = 0%Z.
Proof. split; vm_compute; reflexivity. Qed.

(** C8 (as amended). In single-URL mode the result of the job is dropped:
    whenever the job returns, with [True] or with [False], the program
    ends with status 0.  A status other than 0 arises only when an
    exception escapes the job (status 1) or when the transcoding tool is
    missing at startup (status 1, before any job is started). *)
Theorem single_url_exit_status E args new_file_ops ffmpeg_handler w :
  arg_url args <> [] ->
  let job :=
    process_single_url E (arg_url args) (arg_output args)
      (with_cookies new_file_ops (arg_cookies args)) ffmpeg_handler
      (arg_quality args) (logged INFO banner w) in
  (forall b, job.1 = Ok b ->
     (run_main E args new_file_ops (Some ffmpeg_handler) w).1 = 0%Z)
  /\ (forall e, job.1 = Raise e ->
        (run_main E args new_file_ops (Some ffmpeg_handler) w).1 = 1%Z)
  /\ (run_main E args new_file_ops None w).1 = 1%Z
  /\ effects (trace (run_main E args new_file_ops None w).2) = effects (trace w).
Proof.
  intros Hurl job. subst job. rewrite run_main_single_url by done.
  split; [by intros b ->|]. split; [by intros e ->|].
  unfold run_main, main. run_goal. cbn [fst snd trace].
  split; [done|]. rewrite <- !app_assoc, effects_app. simpl. by rewrite app_nil_r.
Qed.

Lemma single_url_exit_status_witness :
  (run_main Scenario.env_offline Scenario.args_unresolvable Scenario.file_ops
     (Some Scenario.ffmpeg_handler) Scenario.world_fresh).1 = 0%Z
  /\ (run_main Scenario.env Scenario.args_unresolvable Scenario.file_ops
        None Scenario.world_fresh).1 = 1%Z.
Proof.
  destruct (single_url_exit_status Scenario.env_offline Scenario.args_unresolvable
              Scenario.file_ops Scenario.ffmpeg_handler Scenario.world_fresh)
    as (H1 & _ & _ & _).
  { vm_compute. discriminate. }
  destruct (single_url_exit_status Scenario.env Scenario.args_unresolvable
              Scenario.file_ops Scenario.ffmpeg_handler Scenario.world_fresh)
    as (_ & _ & H3 & _).
  { vm_compute. discriminate. }
  split; [|exact H3]. apply (H1 false). vm_compute. reflexivity.
Defined.

(* ===================================================================== *)
(** * Part III: further properties of the code *)
(* ===================================================================== *)

(** ** What a computation leaves alone *)

Lemma Preserves_ret {X A} (f : world -> X) (a : A) : Preserves f (ret a).
Proof. by intros w. Qed.

Lemma Preserves_raise {X A} (f : world -> X) e : Preserves f (@raise A e).
Proof. by intros w. Qed.

Lemma Preserves_lift {X A} (f : world -> X) (r : result A) : Preserves f (lift r).
Proof. by intros w. Qed.

Lemma Preserves_get_fs {X} (f : world -> X) : Preserves f get_fs.
Proof. by intros w. Qed.

Lemma Preserves_bind {X A B} (f : world -> X) (m : M A) (k : A -> M B) :
  Preserves f m -> (forall a, Preserves f (k a)) -> Preserves f (bind m k).
Proof.
  intros Hm Hk w. pose proof (Hm w) as H1.
  apply (bind_case m k w (fun rw => f rw.2 = f w)).
  - intros a w' Hw. rewrite Hw in H1. simpl in H1. by rewrite Hk.
  - intros e w' Hw. by rewrite Hw in H1.
Qed.

Lemma Preserves_catch {X A} (f : world -> X) caught (m : M A) (h : exn -> M A) :
  Preserves f m -> (forall e, Preserves f (h e)) -> Preserves f (catch caught m h).
Proof.
  intros Hm Hh w. pose proof (Hm w) as H1.
  apply (catch_case caught m h w (fun rw => f rw.2 = f w)).
  - intros a w' Hw. by rewrite Hw in H1.
  - intros e w' Hw _. rewrite Hw in H1. simpl in H1. by rewrite Hh.
  - intros e w' Hw _. by rewrite Hw in H1.
Qed.

Lemma Preserves_emit_fs e : Preserves fs (emit e).
Proof. by intros w. Qed.

Lemma Preserves_emit_requests e : Preserves requests (emit e).
Proof. by intros w. Qed.

Lemma Preserves_session_get_fs E session url : Preserves fs (session_get E session url).
Proof. intros w. unfold session_get. by destruct (http E session (requests w) url). Qed.

Lemma Preserves_raise_for_status {X} (f : world -> X) r : Preserves f (raise_for_status r).
Proof.
  unfold raise_for_status. destruct (_ && _); [apply Preserves_raise|apply Preserves_ret].
Qed.

Lemma Preserves_put_fs_requests m : Preserves requests (put_fs m).
Proof. by intros w. Qed.

Lemma Preserves_os_update_requests f : Preserves requests (os_update f).
Proof.
  intros [m n tr]. unfold os_update. run_prog. by destruct (f m).
Qed.

Ltac preserves :=
  repeat match goal with
    | |- Preserves _ (ret _) => apply Preserves_ret
    | |- Preserves _ (raise _) => apply Preserves_raise
    | |- Preserves _ (lift _) => apply Preserves_lift
    | |- Preserves _ get_fs => apply Preserves_get_fs
    | |- Preserves _ (raise_for_status _) => apply Preserves_raise_for_status
    | |- Preserves fs (log _ _) => apply Preserves_emit_fs
    | |- Preserves requests (log _ _) => apply Preserves_emit_requests
    | |- Preserves fs (emit _) => apply Preserves_emit_fs
    | |- Preserves requests (emit _) => apply Preserves_emit_requests
    | |- Preserves fs (session_get _ _ _) => apply Preserves_session_get_fs
    | |- Preserves requests (put_fs _) => apply Preserves_put_fs_requests
    | |- Preserves requests (os_update _) => apply Preserves_os_update_requests
    | |- Preserves _ (bind _ _) => apply Preserves_bind; [|intros ?]
    | |- Preserves _ (catch _ _ _) => apply Preserves_catch; [|intros ?]
    | |- Preserves _ (match ?x with _ => _ end) => destruct x
    end.

(** ** The resolver, further *)

(** The text of a capturing group [(c+)] over a class [c] is a non-empty
    run of characters of that class. *)
Lemma match_here_class_group ic (p : ascii -> bool) pre post s g cap :
  no_capture pre = true -> no_capture post = true ->
  Re.match_here ic (pre ++ Re.Rep true 1 (Re.Cls p) :: post) s g = Some cap ->
  cap <> [] /\ Forall (fun c => p c = true) cap.
Proof.
  intros Hpre Hpost. revert s g.
  induction pre as [|i pre IH]; intros s g H; simpl in *.
  - apply try_down_Some in H as (j & Hj & H).
    apply match_here_no_capture in H as ->; [|done].
    split.
    + destruct s; [simpl in Hj; lia|]. destruct j; [lia|done].
    + apply run_length_take. exact (proj2 Hj).
  - destruct i as [a|c lo a|].
    + destruct s as [|c s]; [discriminate|].
      destruct (Re.atom_ok ic a c); [|discriminate]. by eapply IH.
    + destruct c; [discriminate|].
      apply try_down_Some in H as (j & _ & H). by eapply IH in H.
    + destruct (Re.at_end s); [|discriminate]. by eapply IH.
Qed.




(** Resolution is soft-failing and frugal: it sends exactly one request,
    the GET of the recording URL, never touches the file system, and
    returns normally whenever [urlparse] accepts the URL, whatever the
    network does. *)
Theorem get_id_and_type_one_request E url session w :
  fs (get_id_and_type E url session w).2 = fs w
  /\ requests (get_id_and_type E url session w).2 = S (requests w)
  /\ (exists evs,
        trace (get_id_and_type E url session w).2 = trace w ++ evs
        /\ effects evs = [EvHttpGet url])
  /\ (forall parsed, Url.urlparse url = Ok parsed ->
        exists resolved, (get_id_and_type E url session w).1 = Ok resolved).
Proof.
  destruct (get_id_and_type_run E url session w) as (logs & Hlogs & Hrun).
  split; [by rewrite Hrun|]. split; [by rewrite Hrun|]. split.
  - rewrite Hrun. eexists. split; [reflexivity|].
    unfold effects. cbn [List.filter is_effect]. fold (effects logs).
    by rewrite effects_none.
  - intros parsed Hp. rewrite get_id_and_type_result, Hp.
    destruct (match fetched_body E session (requests w) url with
              | Some body => first_match patterns body
              | None => None
              end); [by eexists|].
    destruct (Re.re_search false path_pattern _); by eexists.
Qed.

Lemma get_id_and_type_one_request_witness :
  exists resolved,
    (get_id_and_type Scenario.env_offline Scenario.meeting_url Scenario.session
       Scenario.world_fresh).1 = Ok resolved.
Proof.
  eapply (proj2 (proj2 (proj2 (get_id_and_type_one_request Scenario.env_offline
             Scenario.meeting_url Scenario.session Scenario.world_fresh)))).
  vm_compute. reflexivity.
Defined.

(** ** The account probe and the candidate list, further *)

(** The account probe never raises and costs exactly one request, a GET of
    the recording URL itself; it leaves the file system alone, and an
    account identifier that it reports is a non-empty run of ASCII
    digits. *)
Theorem get_account_id_soft E url session w :
  exists account,
    get_account_id E url session w
    = (Ok account,
       {| fs := fs w; requests := S (requests w); trace := trace w ++ [EvHttpGet url] |})
    /\ (forall a, account = Some a ->
          a <> [] /\ Forall (fun c => Py.is_ascii_digit c = true) a).
Proof.
  destruct w as [m n tr]. unfold get_account_id. run_prog.
  destruct (http E session n url) as [r|].
  - eexists. split; [reflexivity|]. intros a Ha.
    apply re_search_Some in Ha as (i & _ & Ha).
    change account_pattern with
      ((Re.lits (str "account_id") ++ [Re.spaces; Re.One (Re.Lit "="); Re.spaces])
         ++ Re.digits_group :: []) in Ha.
    apply match_here_digits_group in Ha; [done|by vm_compute|done].
  - exists None. split; [reflexivity|]. intros a [=].
Qed.

Lemma startswith_prefix p x : Py.startswith (p ++ x) p = true.
Proof.
  induction p as [|c p IH]; simpl; [by destruct x|]. by rewrite Ascii.eqb_refl.
Qed.

Lemma endswith_suffix a s : Py.endswith (a ++ s) s = true.
Proof. unfold Py.endswith. rewrite rev_app_distr. apply startswith_prefix. Qed.

Lemma candidate_urls_shape base recording_id account_id :
  Forall (fun u => Py.startswith u (base ++ str "/") = true
                   /\ Py.endswith u (str "?download=zip") = true)
    (candidate_urls base recording_id account_id).
Proof.
  assert (forall x, base ++ str "/p" ++ x = (base ++ str "/") ++ str "p" ++ x) as Hp.
  { intros x. by rewrite <- app_assoc. }
  assert (forall x, base ++ str "/content/" ++ x = (base ++ str "/") ++ str "content/" ++ x)
    as Hc.
  { intros x. by rewrite <- app_assoc. }
  assert (forall x, base ++ str "/" ++ x = (base ++ str "/") ++ x) as Hs.
  { intros x. by rewrite <- app_assoc. }
  unfold candidate_urls, zip_suffix.
  apply Forall_app. split.
  - repeat apply Forall_cons_2; try apply Forall_nil_2.
    all: split; [first [rewrite Hp | rewrite Hs]; apply startswith_prefix
                |rewrite !app_assoc; apply endswith_suffix].
  - destruct account_id as [[|c a]|]; try apply Forall_nil_2.
    repeat apply Forall_cons_2; try apply Forall_nil_2.
    all: split; [rewrite Hc; apply startswith_prefix
                |rewrite !app_assoc; apply endswith_suffix].
Qed.

Lemma fold_add_key_length l d : length (fold_left add_key l d) <= length d + length l.
Proof.
  revert d. induction l as [|k l IH]; intros d; simpl; [lia|].
  etrans; [apply IH|]. unfold add_key. case_bool_decide; [lia|].
  rewrite length_app. simpl. lia.
Qed.

Lemma dict_fromkeys_length l : length (dict_fromkeys l) <= length l.
Proof. apply (fold_add_key_length l []). Qed.

Lemma dict_fromkeys_head x l : head (dict_fromkeys (x :: l)) = Some x.
Proof.
  destruct (dict_fromkeys_first_seen (x :: l) 1) as [k Hk].
  rewrite Hk. reflexivity.
Qed.

(** For a URL that [urlparse] accepts, the candidate list is never empty
    and never longer than six (four without an account identifier); the
    candidate tried first is [<base>/<id>/output/<id>.zip?download=zip],
    and every candidate lies on the scheme and host of the recording URL
    and carries the [?download=zip] query. *)
Theorem construct_zip_urls_shape E url recording_id id_type session w parsed :
  Url.urlparse url = Ok parsed ->
  exists urls,
    (construct_zip_urls E url recording_id id_type session w).1 = Ok urls
    /\ head urls
       = Some (base_of parsed ++ str "/" ++ recording_id ++ str "/output/"
                 ++ recording_id ++ str ".zip?download=zip")
    /\ length urls <= 6
    /\ (discovered_account E session (requests w) url = None -> length urls <= 4)
    /\ Forall (fun u => Py.startswith u (base_of parsed ++ str "/") = true
                        /\ Py.endswith u (str "?download=zip") = true) urls.
Proof.
  intros Hp. rewrite construct_zip_urls_result, Hp.
  set (account_id := discovered_account E session (requests w) url).
  pose proof (dict_fromkeys_length (candidate_urls (base_of parsed) recording_id account_id))
    as Hlen.
  eexists. split; [reflexivity|]. split; [|split; [|split]].
  - apply dict_fromkeys_head.
  - etrans; [exact Hlen|]. destruct account_id as [[|c a]|]; simpl; lia.
  - intros Ha. etrans; [exact Hlen|]. rewrite Ha. simpl. lia.
  - apply Forall_forall. intros u Hu. apply (proj1 (dict_fromkeys_elem _ _)) in Hu.
    pose proof (candidate_urls_shape (base_of parsed) recording_id account_id) as Hall.
    rewrite Forall_forall in Hall. by apply Hall.
Qed.

Lemma construct_zip_urls_shape_witness :
  exists urls,
    (construct_zip_urls Scenario.env Scenario.meeting_url (str "12345") (str "sco-id")
       Scenario.session Scenario.world_fresh).1 = Ok urls
    /\ head urls = Some (str "https://my.adobeconnect.com/12345/output/12345.zip?download=zip")
    /\ length urls <= 6.
Proof.
  edestruct (construct_zip_urls_shape Scenario.env Scenario.meeting_url (str "12345")
               (str "sco-id") Scenario.session Scenario.world_fresh)
    as (urls & H1 & H2 & H3 & _).
  - vm_compute. reflexivity.
  - exists urls. split; [exact H1|]. split; [|exact H3].
    rewrite H2. vm_compute. reflexivity.
Defined.

(** The candidates cost exactly one request, the account probe of the
    recording URL (no candidate is contacted while the list is built), and
    a URL that [urlparse] rejects makes [construct_zip_urls] raise before
    any request is sent. *)
Theorem construct_zip_urls_requests E url recording_id id_type session w :
  (forall parsed, Url.urlparse url = Ok parsed ->
     (construct_zip_urls E url recording_id id_type session w).2
     = {| fs := fs w; requests := S (requests w); trace := trace w ++ [EvHttpGet url] |})
  /\ (forall e, Url.urlparse url = Raise e ->
        construct_zip_urls E url recording_id id_type session w = (Raise e, w)).
Proof.
  split.
  - intros parsed Hp. unfold construct_zip_urls. run_goal. rewrite Hp.
    destruct (get_account_id_soft E url session w) as (account & -> & _). reflexivity.
  - intros e Hp. unfold construct_zip_urls. run_goal. by rewrite Hp.
Qed.

Lemma construct_zip_urls_requests_witness :
  (construct_zip_urls Scenario.env Scenario.meeting_url (str "12345") (str "sco-id")
     Scenario.session Scenario.world_fresh).2
  = {| fs := fs Scenario.world_fresh; requests := 1;
       trace := [EvHttpGet Scenario.meeting_url] |}
  /\ construct_zip_urls Scenario.env (str "https://[my.adobeconnect.com/p1/") (str "12345")
       (str "sco-id") Scenario.session Scenario.world_fresh
     = (Raise ValueError, Scenario.world_fresh).
Proof.
  split.
  - eapply (proj1 (construct_zip_urls_requests Scenario.env Scenario.meeting_url
                     (str "12345") (str "sco-id") Scenario.session Scenario.world_fresh)).
    vm_compute. reflexivity.
  - apply (proj2 (construct_zip_urls_requests Scenario.env
                    (str "https://[my.adobeconnect.com/p1/") (str "12345") (str "sco-id")
                    Scenario.session Scenario.world_fresh)).
    vm_compute. reflexivity.
Defined.

(** ** The archive fetcher, further *)

Ltac close_trace :=
  eexists; split;
    [|rewrite <- ?app_assoc; cbn [app]; rewrite <- ?app_assoc; reflexivity];
    by repeat constructor.

(** A response that is turned down costs one request and nothing else. *)
Lemma download_zip_file_turned_down E zip_url output_path session w :
  turned_down E session (requests w) zip_url = true ->
  exists logs,
    Forall (fun e => is_effect e = false) logs
    /\ download_zip_file E zip_url output_path session w
       = (Ok false,
          {| fs := fs w; requests := S (requests w);
             trace := trace w ++ EvHttpGet zip_url :: logs |}).
Proof.
  destruct w as [m n tr]. unfold turned_down, is_html, length_header_ok.
  cbn [requests]. intros Ht. unfold download_zip_file. run_goal.
  destruct (http E session n zip_url) as [r|]; [|close_trace].
  destruct (status_code r =? 200)%Z; [|close_trace].
  destruct (Py.contains _ _); [close_trace|].
  destruct (content_length r) as [h|]; [|discriminate].
  destruct (Py.int h) as [total|]; [|close_trace].
  rewrite bool_decide_eq_true_2 in Ht by (by eexists). discriminate.
Qed.

(** A response that is not turned down is streamed to the output path as
    far as it comes, provided the path can be opened for writing. *)
Lemma download_zip_file_streamed E zip_url output_path session w r :
  http E session (requests w) zip_url = Some r ->
  turned_down E session (requests w) zip_url = false ->
  exists logs,
    Forall (fun e => is_effect e = false) logs
    /\ download_zip_file E zip_url output_path session w
       = match Os.open_w output_path (fs w) with
         | Some _ =>
             (Ok (stream_ok r),
              {| fs := <[output_path := Os.File (concat (chunks r))]> (fs w);
                 requests := S (requests w);
                 trace := trace w ++ EvHttpGet zip_url :: EvOpenWrite output_path
                            :: chunk_events output_path (chunks r) ++ logs |})
         | None =>
             (Ok false,
              {| fs := fs w; requests := S (requests w);
                 trace := trace w ++ EvHttpGet zip_url :: logs |})
         end.
Proof.
  destruct w as [m n tr]. unfold turned_down, is_html, length_header_ok.
  cbn [requests fs trace]. intros Hr. rewrite Hr. intros Ht.
  apply orb_false_elim in Ht as [Ht Hl]. apply orb_false_elim in Ht as [Hs Hh].
  apply negb_false_iff in Hs, Hl.
  unfold download_zip_file. run_goal. rewrite Hr, Hs, Hh.
  destruct (content_length r) as [h|].
  1: apply bool_decide_eq_true in Hl as [total ->].
  all: run_goal; unfold Os.open_w;
    destruct (Os.is_dir (m !! output_path) || negb (Os.parent_ok m output_path));
    run_goal.
  1, 3: close_trace.
  all: erewrite write_chunks_run by apply lookup_insert_eq;
    rewrite insert_insert_eq; destruct (stream_ok r); run_goal.
  1, 3: exists [].
  3, 4: exists [EvLog ERROR (str "Error downloading " ++ zip_url)].
  all: split; [by repeat constructor|].
  all: rewrite ?app_nil_r, <- ?app_assoc; cbn [app]; reflexivity.
Qed.

Lemma turned_down_false E session n url :
  turned_down E session n url = false ->
  exists r,
    http E session n url = Some r
    /\ status_code r = 200%Z /\ is_html r = false /\ length_header_ok r = true.
Proof.
  unfold turned_down. destruct (http E session n url) as [r|]; [|discriminate].
  intros Ht. apply orb_false_elim in Ht as [Ht Hl]. apply orb_false_elim in Ht as [Hs Hh].
  apply negb_false_iff in Hs, Hl. apply Z.eqb_eq in Hs. by exists r.
Qed.

(** [download_zip_file] never raises, whatever the server and the file
    system do: it returns a boolean after exactly one request, and the
    only path of the file system that it may change is its output path. *)
Theorem download_zip_file_never_raises E zip_url output_path session w :
  exists b,
    (download_zip_file E zip_url output_path session w).1 = Ok b
    /\ requests (download_zip_file E zip_url output_path session w).2 = S (requests w)
    /\ (forall p, p <> output_path ->
          fs (download_zip_file E zip_url output_path session w).2 !! p = fs w !! p).
Proof.
  destruct (turned_down E session (requests w) zip_url) eqn:Ht.
  - destruct (download_zip_file_turned_down E zip_url output_path session w Ht)
      as (logs & _ & ->).
    by exists false.
  - destruct (turned_down_false _ _ _ _ Ht) as (r & Hr & _).
    destruct (download_zip_file_streamed E zip_url output_path session w r Hr Ht)
      as (logs & _ & ->).
    destruct (Os.open_w output_path (fs w)).
    + exists (stream_ok r). split; [done|]. split; [done|].
      intros p Hp. cbn [snd fs]. by rewrite lookup_insert_ne.
    + by exists false.
Qed.

(** [download_zip_file] returns [True] only for a response with status
    200 whose content type does not mention HTML and whose body arrived
    completely; the output path then holds exactly that body, whatever was
    there before. *)
Theorem download_zip_file_true E zip_url output_path session w :
  (download_zip_file E zip_url output_path session w).1 = Ok true ->
  exists r,
    http E session (requests w) zip_url = Some r
    /\ status_code r = 200%Z /\ is_html r = false /\ stream_ok r = true
    /\ fs (download_zip_file E zip_url output_path session w).2
       = <[output_path := Os.File (concat (chunks r))]> (fs w).
Proof.
  destruct (turned_down E session (requests w) zip_url) eqn:Ht.
  - destruct (download_zip_file_turned_down E zip_url output_path session w Ht)
      as (logs & _ & ->).
    discriminate.
  - destruct (turned_down_false _ _ _ _ Ht) as (r & Hr & Hs & Hh & _).
    destruct (download_zip_file_streamed E zip_url output_path session w r Hr Ht)
      as (logs & _ & ->).
    destruct (Os.open_w output_path (fs w)); [|discriminate].
    cbn [fst snd fs]. intros [= Hok]. by exists r.
Qed.

Lemma download_zip_file_true_witness :
  exists r,
    http Scenario.env Scenario.session 4
      (str "https://h/p12345/output/12345.zip?download=zip") = Some r
    /\ fs (download_zip_file Scenario.env
             (str "https://h/p12345/output/12345.zip?download=zip")
             Scenario.zip_path Scenario.session
             {| fs := fs Scenario.world_fetching; requests := 4; trace := [] |}).2
       = <[Scenario.zip_path := Os.File (concat (chunks r))]> (fs Scenario.world_fetching).
Proof.
  edestruct (download_zip_file_true Scenario.env
               (str "https://h/p12345/output/12345.zip?download=zip")
               Scenario.zip_path Scenario.session
               {| fs := fs Scenario.world_fetching; requests := 4; trace := [] |})
    as (r & Hr & _ & _ & _ & Hfs).
  - vm_compute. reflexivity.
  - exists r. split; [exact Hr|exact Hfs].
Defined.

(** A candidate is given up before the output file is opened when the
    request raises, the status is not 200, the content type mentions HTML
    or the [content-length] header is not an integer: the result is
    [False], the request is the only effect, and the file system is as it
    was, so an archive left at the output path by an earlier candidate
    survives. *)
Theorem download_zip_file_gives_up_early E zip_url output_path session w :
  turned_down E session (requests w) zip_url = true ->
  (download_zip_file E zip_url output_path session w).1 = Ok false
  /\ fs (download_zip_file E zip_url output_path session w).2 = fs w
  /\ exists evs,
       trace (download_zip_file E zip_url output_path session w).2 = trace w ++ evs
       /\ effects evs = [EvHttpGet zip_url].
Proof.
  intros Ht.
  destruct (download_zip_file_turned_down E zip_url output_path session w Ht)
    as (logs & Hlogs & ->).
  split; [done|]. split; [done|]. eexists. split; [reflexivity|].
  unfold effects. cbn [List.filter is_effect]. fold (effects logs).
  by rewrite effects_none.
Qed.

Lemma download_zip_file_gives_up_early_witness :
  (download_zip_file Scenario.env (str "https://h/12345/output/12345.zip?download=zip")
     Scenario.zip_path Scenario.session Scenario.world_fetching).1 = Ok false
  /\ fs (download_zip_file Scenario.env
           (str "https://h/12345/output/12345.zip?download=zip")
           Scenario.zip_path Scenario.session Scenario.world_fetching).2
     = fs Scenario.world_fetching.
Proof.
  edestruct (download_zip_file_gives_up_early Scenario.env
               (str "https://h/12345/output/12345.zip?download=zip")
               Scenario.zip_path Scenario.session Scenario.world_fetching)
    as (H1 & H2 & _).
  - vm_compute. reflexivity.
  - split; [exact H1|exact H2].
Defined.

(** A transfer that breaks in the middle is reported as a failure, but
    the output file has been created by then: the part of the body that
    arrived is left at the output path. *)
Theorem download_zip_file_broken_stream E zip_url output_path session w r :
  http E session (requests w) zip_url = Some r ->
  turned_down E session (requests w) zip_url = false ->
  stream_ok r = false ->
  writable (fs w) output_path = true ->
  (download_zip_file E zip_url output_path session w).1 = Ok false
  /\ file_at (fs (download_zip_file E zip_url output_path session w).2) output_path
     = Some (concat (chunks r)).
Proof.
  intros Hr Ht Hok Hopen. apply bool_decide_eq_true in Hopen as [m1 Hopen].
  destruct (download_zip_file_streamed E zip_url output_path session w r Hr Ht)
    as (logs & _ & ->).
  rewrite Hopen, Hok. cbn [fst snd fs]. split; [done|].
  unfold file_at. by rewrite lookup_insert_eq.
Qed.

Lemma download_zip_file_broken_stream_witness :
  (download_zip_file Scenario.env_broken (str "https://h/12345/output/12345.zip?download=zip")
     Scenario.zip_path Scenario.session Scenario.world_fetching).1 = Ok false
  /\ file_at
       (fs (download_zip_file Scenario.env_broken
              (str "https://h/12345/output/12345.zip?download=zip")
              Scenario.zip_path Scenario.session Scenario.world_fetching).2)
       Scenario.zip_path
     = Some (str "PK").
Proof.
  apply (download_zip_file_broken_stream Scenario.env_broken
           (str "https://h/12345/output/12345.zip?download=zip")
           Scenario.zip_path Scenario.session Scenario.world_fetching
           Scenario.archive_broken).
  - reflexivity.
  - vm_compute. reflexivity.
  - reflexivity.
  - vm_compute. reflexivity.
Defined.

(** ** The candidate loop *)

Lemma try_zip_urls_turned_down E zip_urls zip_path session w :
  (forall i u, zip_urls !! i = Some u ->
     turned_down E session (requests w + i) u = true) ->
  exists evs,
    effects evs = map EvHttpGet zip_urls
    /\ try_zip_urls E zip_urls zip_path session w
       = (Ok false,
          {| fs := fs w; requests := requests w + length zip_urls;
             trace := trace w ++ evs |}).
Proof.
  revert w. induction zip_urls as [|u rest IH]; intros w Hall.
  - exists []. split; [done|]. destruct w as [m n tr]. cbn [try_zip_urls]. unfold ret.
    cbn [fs requests trace length]. by rewrite Nat.add_0_r, app_nil_r.
  - rewrite try_zip_urls_cons.
    pose proof (Hall 0 u eq_refl) as Hu. rewrite Nat.add_0_r in Hu.
    destruct (download_zip_file_turned_down E u zip_path session
                (logged INFO (str "Trying download from: " ++ u) w) Hu)
      as (logs & Hlogs & ->).
    match goal with
    | |- context [try_zip_urls E rest zip_path session ?w0] =>
        destruct (IH w0) as (evs & Heff & ->)
    end.
    { intros i v Hv. cbn [requests logged]. rewrite Nat.add_succ_l, <- Nat.add_succ_r.
      by apply (Hall (S i)). }
    exists (EvLog INFO (str "Trying download from: " ++ u) :: EvHttpGet u :: logs ++ evs).
    split.
    + unfold effects. cbn [List.filter is_effect]. rewrite List.filter_app.
      fold (effects logs) (effects evs). by rewrite effects_none, Heff.
    + cbn [fs requests trace logged length]. f_equal. f_equal; [lia|].
      rewrite <- !app_assoc. reflexivity.
Qed.

(** When every candidate is given up before the output file is opened,
    the loop ends with [success = False] after exactly one request per
    candidate, in list order, and the file system is as it was. *)
Theorem try_zip_urls_all_given_up E zip_urls zip_path session w :
  (forall i u, zip_urls !! i = Some u ->
     turned_down E session (requests w + i) u = true) ->
  (try_zip_urls E zip_urls zip_path session w).1 = Ok false
  /\ fs (try_zip_urls E zip_urls zip_path session w).2 = fs w
  /\ requests (try_zip_urls E zip_urls zip_path session w).2
     = requests w + length zip_urls
  /\ exists evs,
       trace (try_zip_urls E zip_urls zip_path session w).2 = trace w ++ evs
       /\ effects evs = map EvHttpGet zip_urls.
Proof.
  intros Hall.
  destruct (try_zip_urls_turned_down E zip_urls zip_path session w Hall)
    as (evs & Heff & ->).
  split; [done|]. split; [done|]. split; [done|]. by exists evs.
Qed.

Lemma try_zip_urls_all_given_up_witness :
  (try_zip_urls Scenario.env_login
     [str "https://h/12345/output/12345.zip?download=zip";
      str "https://h/12345/output/output.zip?download=zip"]
     Scenario.zip_path Scenario.session Scenario.world_fetching).1 = Ok false
  /\ requests (try_zip_urls Scenario.env_login
                 [str "https://h/12345/output/12345.zip?download=zip";
                  str "https://h/12345/output/output.zip?download=zip"]
                 Scenario.zip_path Scenario.session Scenario.world_fetching).2 = 4.
Proof.
  edestruct (try_zip_urls_all_given_up Scenario.env_login
               [str "https://h/12345/output/12345.zip?download=zip";
                str "https://h/12345/output/output.zip?download=zip"]
               Scenario.zip_path Scenario.session Scenario.world_fetching)
    as (H1 & _ & H3 & _).
  - intros i u _. vm_compute. reflexivity.
  - split; [exact H1|exact H3].
Defined.



(** ** Cleaning up *)




(** ** Jobs that end early *)

(** A job whose identifier cannot be resolved ends at once with [False]:
    the page fetch of the resolver is its only effect, no working
    directory is created and the file system is as it was. *)
Theorem process_single_url_unresolved
    E url custom_filename file_ops ffmpeg_handler quality w session :
  (setup_session (cookies file_ops) w).1 = Ok session ->
  (get_id_and_type E url session w).1 = Ok None ->
  (process_single_url E url custom_filename file_ops ffmpeg_handler quality w).1 = Ok false
  /\ fs (process_single_url E url custom_filename file_ops ffmpeg_handler quality w).2 = fs w
  /\ requests (process_single_url E url custom_filename file_ops ffmpeg_handler quality w).2
     = S (requests w)
  /\ exists evs,
       trace (process_single_url E url custom_filename file_ops ffmpeg_handler quality w).2
         = trace w ++ evs
       /\ effects evs = [EvHttpGet url].
Proof.
  intros Hs Hr. destruct w as [m n tr].
  unfold process_single_url. run_goal.
  rewrite (setup_session_run _ _ _ Hs) by reflexivity.
  match goal with
  | |- context [get_id_and_type E url session ?w1] =>
      destruct (get_id_and_type_run E url session w1) as (logs & Hlogs & ->);
      rewrite (get_id_and_type_requests E url session
                 {| fs := m; requests := n; trace := tr |} w1 eq_refl), Hr
  end.
  run_goal. split; [done|]. split; [done|]. split; [done|].
  eexists. split; [rewrite <- !app_assoc; reflexivity|].
  unfold effects. cbn [app List.filter is_effect]. rewrite List.filter_app.
  fold (effects logs). by rewrite effects_none.
Qed.

Lemma process_single_url_unresolved_witness :
  (process_single_url Scenario.env_offline (str "https://my.adobeconnect.com/") None
     Scenario.file_ops Scenario.ffmpeg_handler Scenario.quality Scenario.world_fresh).1
    = Ok false
  /\ fs (process_single_url Scenario.env_offline (str "https://my.adobeconnect.com/") None
           Scenario.file_ops Scenario.ffmpeg_handler Scenario.quality
           Scenario.world_fresh).2
     = fs Scenario.world_fresh.
Proof.
  edestruct (process_single_url_unresolved Scenario.env_offline
               (str "https://my.adobeconnect.com/") None Scenario.file_ops
               Scenario.ffmpeg_handler Scenario.quality Scenario.world_fresh
               Scenario.session)
    as (H1 & H2 & _).
  - vm_compute. reflexivity.
  - vm_compute. reflexivity.
  - split; [exact H1|exact H2].
Defined.

(** A [--cookies] argument that names a directory stops the program before
    anything is sent: [open] raises, nothing catches the exception, and
    the program ends with status 1 after the banner and the first log
    record of the job, without a request and without a change to the file
    system. *)
Theorem cookies_directory_aborts E args new_file_ops ffmpeg_handler w c :
  arg_url args <> [] ->
  arg_cookies args = Some c -> c <> [] ->
  fs w !! c = Some Os.Dir ->
  (main E args new_file_ops (Some ffmpeg_handler) w).1 = Raise OSError
  /\ (run_main E args new_file_ops (Some ffmpeg_handler) w).1 = 1%Z
  /\ fs (run_main E args new_file_ops (Some ffmpeg_handler) w).2 = fs w
  /\ requests (run_main E args new_file_ops (Some ffmpeg_handler) w).2 = requests w
  /\ effects (trace (run_main E args new_file_ops (Some ffmpeg_handler) w).2)
     = effects (trace w).
Proof.
  intros Hurl Hc Hne Hdir. destruct w as [m n tr]. cbn [fs] in Hdir.
  unfold run_main, main, process_single_url, setup_session.
  destruct (arg_url args) as [|u0 u] eqn:Hu; [done|].
  cbn [cookies]. rewrite Hc. destruct c as [|c0 c]; [done|].
  run_goal. rewrite Hdir. run_goal. cbn [fst snd fs requests trace exit_status].
  repeat split. rewrite <- !app_assoc, effects_app. cbn. by rewrite app_nil_r.
Qed.

Lemma cookies_directory_aborts_witness :
  (run_main Scenario.env
     {| arg_url := Scenario.meeting_url; arg_output := None;
        arg_cookies := Some (str "/dl"); arg_quality := str "medium" |}
     Scenario.file_ops (Some Scenario.ffmpeg_handler) Scenario.world_fresh).1 = 1%Z
  /\ requests
       (run_main Scenario.env
          {| arg_url := Scenario.meeting_url; arg_output := None;
             arg_cookies := Some (str "/dl"); arg_quality := str "medium" |}
          Scenario.file_ops (Some Scenario.ffmpeg_handler) Scenario.world_fresh).2 = 0.
Proof.
  edestruct (cookies_directory_aborts Scenario.env
               {| arg_url := Scenario.meeting_url; arg_output := None;
                  arg_cookies := Some (str "/dl"); arg_quality := str "medium" |}
               Scenario.file_ops Scenario.ffmpeg_handler Scenario.world_fresh (str "/dl"))
    as (_ & H2 & _ & H4 & _).
  - vm_compute. discriminate.
  - reflexivity.
  - vm_compute. discriminate.
  - vm_compute. reflexivity.
  - split; [exact H2|exact H4].
Defined.

(** ** Cookies *)

Lemma lstrip_by_pad f pad s :
  forallb f pad = true -> Py.lstrip_by f (pad ++ s) = Py.lstrip_by f s.
Proof.
  induction pad as [|c pad IH]; simpl; [done|].
  intros H. apply andb_true_iff in H as [-> H]. by apply IH.
Qed.

Lemma lstrip_by_all f pad : forallb f pad = true -> Py.lstrip_by f pad = [].
Proof.
  induction pad as [|c pad IH]; simpl; [done|].
  intros H. apply andb_true_iff in H as [-> H]. by apply IH.
Qed.

Lemma lstrip_by_id f s :
  forallb (fun c => negb (f c)) s = true -> Py.lstrip_by f s = s.
Proof.
  destruct s as [|c s]; simpl; [done|].
  intros H. apply andb_true_iff in H as [H _]. apply negb_true_iff in H. by rewrite H.
Qed.

Lemma forallb_rev {A} (f : A -> bool) l : forallb f (rev l) = forallb f l.
Proof.
  induction l as [|x l IH]; simpl; [done|].
  rewrite forallb_app, IH. simpl. rewrite andb_true_r. apply andb_comm.
Qed.

Lemma strip_by_pad f pad1 s pad2 :
  forallb f pad1 = true -> forallb f pad2 = true ->
  forallb (fun c => negb (f c)) s = true ->
  Py.strip_by f (pad1 ++ s ++ pad2) = s.
Proof.
  intros H1 H2 Hs. unfold Py.strip_by, Py.rstrip_by.
  rewrite lstrip_by_pad by done.
  destruct s as [|c s].
  - cbn [app]. rewrite (lstrip_by_all f pad2) by done. reflexivity.
  - assert (Py.lstrip_by f ((c :: s) ++ pad2) = (c :: s) ++ pad2) as ->.
    { simpl in *. apply andb_true_iff in Hs as [Hc _]. apply negb_true_iff in Hc.
      by rewrite Hc. }
    rewrite rev_app_distr, lstrip_by_pad by (by rewrite forallb_rev).
    rewrite lstrip_by_id by (by rewrite forallb_rev). apply rev_involutive.
Qed.

Lemma strip_by_id f s :
  forallb (fun c => negb (f c)) s = true -> Py.strip_by f s = s.
Proof.
  intros H. pose proof (strip_by_pad f [] s [] eq_refl eq_refl H) as Hs.
  by rewrite app_nil_r in Hs.
Qed.

Lemma split_once_at sep a b :
  forallb (fun c => negb (Ascii.eqb c sep)) a = true ->
  Py.split_once sep (a ++ sep :: b) = (a, Some b).
Proof.
  induction a as [|c a IH]; simpl.
  - by rewrite Ascii.eqb_refl.
  - intros H. apply andb_true_iff in H as [Hc H]. apply negb_true_iff in Hc.
    by rewrite Hc, IH.
Qed.

Lemma forallb_impl {A} (f g : A -> bool) l :
  (forall x, f x = true -> g x = true) -> forallb f l = true -> forallb g l = true.
Proof.
  intros Hfg. induction l as [|x l IH]; simpl; [done|].
  intros H. apply andb_true_iff in H as [Hx H]. by rewrite Hfg, IH.
Qed.

Lemma is_space_not_semicolon c : Py.is_space c = true -> Ascii.eqb c ";" = false.
Proof.
  intros H. destruct (Ascii.eqb c ";") eqn:Hc; [|done].
  apply Ascii.eqb_eq in Hc. subst c. by vm_compute in H.
Qed.

Lemma split_plain sep s :
  forallb (fun c => negb (Ascii.eqb c sep)) s = true -> Py.split sep s = [s].
Proof.
  intros H. apply split_no_sep. apply Forall_forall. intros c Hc.
  apply negb_true_iff. rewrite forallb_forall in H. apply H.
  by apply list_elem_of_In.
Qed.

(** The jar that one well-formed cookie, possibly padded with white
    space, leads to. *)
Lemma set_cookies_single (name value pad1 pad2 : pystr) :
  forallb cookie_name_char name = true ->
  forallb cookie_value_char value = true ->
  forallb Py.is_space pad1 = true ->
  forallb Py.is_space pad2 = true ->
  set_cookies (Py.split ";" (pad1 ++ (name ++ str "=" ++ value) ++ pad2)) ∅
  = {[ name := value ]}.
Proof.
  intros Hn Hv H1 H2.
  assert (forallb (fun c => negb (Py.is_space c)) name = true) as Hns.
  { revert Hn. apply forallb_impl. intros c. unfold cookie_name_char.
    rewrite !andb_true_iff. tauto. }
  assert (forallb (fun c => negb (Py.is_space c)) value = true) as Hvs.
  { revert Hv. apply forallb_impl. intros c. unfold cookie_value_char.
    rewrite !andb_true_iff. tauto. }
  assert (forallb (fun c => negb (Ascii.eqb c "=")) name = true) as Hne.
  { revert Hn. apply forallb_impl. intros c. unfold cookie_name_char.
    rewrite !andb_true_iff. tauto. }
  assert (forallb (fun c => negb (Py.is_space c)) (name ++ str "=" ++ value) = true) as Hcore.
  { rewrite !forallb_app, Hns, Hvs. reflexivity. }
  rewrite split_plain.
  2:{ rewrite !forallb_app. rewrite !andb_true_iff. repeat split.
      - revert H1. apply forallb_impl. intros c Hc. by rewrite is_space_not_semicolon.
      - revert Hn. apply forallb_impl. intros c. unfold cookie_name_char.
        rewrite !andb_true_iff. tauto.
      - revert Hv. apply forallb_impl. intros c. unfold cookie_value_char.
        rewrite !andb_true_iff. tauto.
      - revert H2. apply forallb_impl. intros c Hc. by rewrite is_space_not_semicolon. }
  cbn [set_cookies].
  assert (Py.has_char "=" (pad1 ++ (name ++ str "=" ++ value) ++ pad2) = true) as ->.
  { rewrite !has_char_app. change (Py.has_char "=" (str "=")) with true.
    by rewrite !orb_true_r. }
  unfold Py.strip at 1. rewrite strip_by_pad by done.
  change (name ++ str "=" ++ value) with (name ++ "="%char :: value).
  rewrite split_once_at by done.
  unfold Py.strip. rewrite !strip_by_id by done. apply insert_empty.
Qed.

(** [setup_session] never changes the world.  A cookie string that is a
    single [name=value] pair, possibly padded with white space, puts
    exactly that cookie into the jar: the value is cut at the first [=]
    only, so a value that itself holds [=] is kept whole.  The same text
    read from an existing file gives the same jar, its trailing newline
    stripped. *)
Theorem setup_session_single_cookie (name value pad1 pad2 cookie_str : pystr) (w : world) :
  forallb cookie_name_char name = true ->
  forallb cookie_value_char value = true ->
  forallb Py.is_space pad1 = true ->
  forallb Py.is_space pad2 = true ->
  cookie_str <> [] ->
  (fs w !! cookie_str = None /\ cookie_str = pad1 ++ (name ++ str "=" ++ value) ++ pad2)
  \/ fs w !! cookie_str = Some (Os.File (pad1 ++ (name ++ str "=" ++ value) ++ pad2)) ->
  setup_session (Some cookie_str) w = (Ok {| cookie_jar := {[ name := value ]} |}, w).
Proof.
  intros Hn Hv H1 H2 Hne Hc. destruct w as [m n tr]. cbn [fs] in Hc.
  unfold setup_session. destruct cookie_str as [|c0 cs]; [done|]. run_goal.
  destruct Hc as [[Hc Heq]|Hc]; rewrite Hc; run_goal.
  - by rewrite Heq, set_cookies_single.
  - unfold Py.strip at 1. rewrite strip_by_pad; [| done | done |].
    + pose proof (set_cookies_single name value [] [] Hn Hv eq_refl eq_refl) as Hjar.
      cbn [app] in Hjar. rewrite app_nil_r in Hjar. by rewrite Hjar.
    + assert (forallb (fun c => negb (Py.is_space c)) name = true) as Hns.
      { revert Hn. apply forallb_impl. intros c. unfold cookie_name_char.
        rewrite !andb_true_iff. tauto. }
      assert (forallb (fun c => negb (Py.is_space c)) value = true) as Hvs.
      { revert Hv. apply forallb_impl. intros c. unfold cookie_value_char.
        rewrite !andb_true_iff. tauto. }
      rewrite !forallb_app, Hns, Hvs. reflexivity.
Qed.

Lemma setup_session_single_cookie_witness :
  setup_session (Some (str " BREEZESESSION=abc== ")) Scenario.world_fresh
  = (Ok {| cookie_jar := {[ str "BREEZESESSION" := str "abc==" ]} |}, Scenario.world_fresh).
Proof.
  apply (setup_session_single_cookie (str "BREEZESESSION") (str "abc==") (str " ") (str " ")).
  - vm_compute. reflexivity.
  - vm_compute. reflexivity.
  - vm_compute. reflexivity.
  - vm_compute. reflexivity.
  - vm_compute. discriminate.
  - left. split; [vm_compute; reflexivity|reflexivity].
Defined.

(** ** The sort key *)












(** ** The groups of the classifier *)

Lemma alnum_lower_char c :
  Py.is_ascii_alnum c = true ->
  Py.is_ascii_alnum (Py.lower_char c) = true /\ Py.is_ascii_upper (Py.lower_char c) = false.
Proof. destruct c as [[] [] [] [] [] [] [] []]; vm_compute; intuition congruence. Qed.

Lemma dict_append_keys key v (streams : list (pystr * list pystr)) :
  map fst (dict_append key v streams)
  = if bool_decide (key ∈ map fst streams) then map fst streams
    else map fst streams ++ [key].
Proof.
  induction streams as [|[k vs] rest IH]; [done|]. cbn [dict_append].
  destruct (decide (k = key)) as [->|Hk].
  - rewrite bool_decide_eq_true_2 by done. cbn [map fst].
    by rewrite bool_decide_eq_true_2 by left.
  - rewrite bool_decide_eq_false_2 by done. cbn [map fst]. rewrite IH.
    destruct (decide (key ∈ map fst rest)) as [Hin|Hin].
    + rewrite !bool_decide_eq_true_2; [done|by right|done].
    + rewrite !bool_decide_eq_false_2; [done| |done].
      intros [?|?]%elem_of_cons; [by subst|done].
Qed.

Lemma dict_append_NoDup key v (streams : list (pystr * list pystr)) :
  NoDup (map fst streams) -> NoDup (map fst (dict_append key v streams)).
Proof.
  intros H. rewrite dict_append_keys. case_bool_decide as Hin; [done|].
  apply NoDup_app. split; [done|]. split; [|apply NoDup_singleton].
  intros x Hx Hk. apply list_elem_of_singleton in Hk. by subst.
Qed.

Lemma dict_append_Forall (Q : pystr -> pystr -> Prop) key v
    (streams : list (pystr * list pystr)) :
  Q key v ->
  Forall (fun g => g.2 <> [] /\ Forall (Q g.1) g.2) streams ->
  Forall (fun g => g.2 <> [] /\ Forall (Q g.1) g.2) (dict_append key v streams).
Proof.
  intros Hq. induction 1 as [|[k vs] rest [Hne Hvs] Hrest IH]; cbn [dict_append].
  - repeat constructor; [done|done].
  - case_bool_decide as Hk.
    + subst k. constructor; [|done]. cbn [fst snd] in *. split.
      * by destruct vs.
      * apply Forall_app. split; [done|]. by repeat constructor.
    + by constructor.
Qed.

Lemma dict_append_here key v (streams : list (pystr * list pystr)) :
  exists files, (key, files) ∈ dict_append key v streams /\ v ∈ files.
Proof.
  induction streams as [|[k vs] rest IH]; cbn [dict_append].
  - exists [v]. split; by left.
  - case_bool_decide as Hk.
    + subst k. exists (vs ++ [v]). split; [by left|].
      apply elem_of_app. right. by left.
    + destruct IH as (files & Hin & Hv). exists files. split; [by right|done].
Qed.

Lemma dict_append_keeps key v (streams : list (pystr * list pystr)) k files x :
  (k, files) ∈ streams -> x ∈ files ->
  exists files', (k, files') ∈ dict_append key v streams /\ x ∈ files'.
Proof.
  induction streams as [|[k0 vs] rest IH]; intros Hin Hx; [by apply elem_of_nil in Hin|].
  cbn [dict_append]. apply elem_of_cons in Hin as [[= <- <-]|Hin].
  - case_bool_decide as Hk.
    + exists (files ++ [v]). split; [subst; by left|]. apply elem_of_app. by left.
    + exists files. split; [by left|done].
  - destruct (IH Hin Hx) as (files' & Hin' & Hx').
    case_bool_decide as Hk.
    + exists files. split; [by right|done].
    + exists files'. split; [by right|done].
Qed.

Section Scan.

Variable extract_folder : pystr.

Lemma scan_streams_keeps listing (streams : list (pystr * list pystr)) k files x :
  (k, files) ∈ streams -> x ∈ files ->
  exists files', (k, files') ∈ scan_streams extract_folder listing streams /\ x ∈ files'.
Proof.
  revert streams files. induction listing as [|filename rest IH]; intros streams files Hin Hx.
  - by exists files.
  - cbn [scan_streams].
    destruct (Py.endswith (Py.lower filename) (str ".flv")); [|by eapply IH].
    destruct (Re.re_match false stream_pattern filename) as [prefix|]; [|by eapply IH].
    destruct (dict_append_keeps (Py.lower prefix) (Os.join extract_folder filename)
                streams k files x Hin Hx) as (files' & Hin' & Hx').
    by eapply IH.
Qed.

Lemma scan_streams_complete listing (streams : list (pystr * list pystr)) filename prefix :
  filename ∈ listing ->
  Py.endswith (Py.lower filename) (str ".flv") = true ->
  Re.re_match false stream_pattern filename = Some prefix ->
  exists files,
    (Py.lower prefix, files) ∈ scan_streams extract_folder listing streams
    /\ Os.join extract_folder filename ∈ files.
Proof.
  revert streams. induction listing as [|g rest IH]; intros streams Hin He Hm.
  - by apply elem_of_nil in Hin.
  - cbn [scan_streams]. apply elem_of_cons in Hin as [<-|Hin]; [|by apply IH].
    rewrite He, Hm.
    destruct (dict_append_here (Py.lower prefix) (Os.join extract_folder filename) streams)
      as (files & Hin & Hx).
    by eapply scan_streams_keeps.
Qed.

Lemma scan_streams_sound listing seen (streams : list (pystr * list pystr)) :
  NoDup (map fst streams) ->
  Forall (fun g => g.2 <> [] /\ Forall (grouped extract_folder (seen ++ listing) g.1) g.2)
    streams ->
  NoDup (map fst (scan_streams extract_folder listing streams))
  /\ Forall (fun g => g.2 <> [] /\ Forall (grouped extract_folder (seen ++ listing) g.1) g.2)
       (scan_streams extract_folder listing streams).
Proof.
  revert seen streams. induction listing as [|filename rest IH]; intros seen streams Hnd Hall.
  - done.
  - cbn [scan_streams].
    replace (seen ++ filename :: rest) with ((seen ++ [filename]) ++ rest) in *
      by (by rewrite <- app_assoc).
    destruct (Py.endswith (Py.lower filename) (str ".flv")) eqn:He; [|by apply IH].
    destruct (Re.re_match false stream_pattern filename) as [prefix|] eqn:Hm; [|by apply IH].
    apply IH; [by apply dict_append_NoDup|].
    apply dict_append_Forall; [|done].
    exists filename, prefix. split; [|done].
    apply elem_of_app. left. apply elem_of_app. right. by left.
Qed.

End Scan.

Lemma stream_pattern_prefix filename prefix :
  Re.re_match false stream_pattern filename = Some prefix ->
  prefix <> [] /\ Forall (fun c => Py.is_ascii_alnum c = true) prefix.
Proof.
  unfold Re.re_match.
  change stream_pattern
    with ([] ++ Re.Rep true 1 (Re.Cls Py.is_ascii_alnum) :: [Re.One (Re.Lit "_")]).
  intros H. by apply match_here_class_group in H.
Qed.

Lemma grouped_key extract_folder listing key path :
  grouped extract_folder listing key path ->
  key <> []
  /\ Forall (fun c => Py.is_ascii_alnum c = true /\ Py.is_ascii_upper c = false) key.
Proof.
  intros (filename & prefix & _ & _ & Hm & -> & _).
  apply stream_pattern_prefix in Hm as [Hne Hall]. split; [by destruct prefix|].
  unfold Py.lower. clear Hne. induction Hall as [|c prefix Hc Hall IH]; [constructor|].
  cbn [map]. constructor; [by apply alnum_lower_char|done].
Qed.

(** What the classifier returns, whenever it returns: the group names
    are distinct, non-empty and made of lower-case ASCII letters and
    digits; no group is empty; every path in a group is the place of a
    listed file whose name ends in [.flv] in any case and starts with the
    group's name, in any case, followed by an underscore; and every such
    file is in the group of its lower-cased prefix. *)
Theorem classify_groups extract_folder listing streams :
  classify extract_folder listing = Ok streams ->
  NoDup (map fst streams)
  /\ Forall (fun g =>
       g.1 <> []
       /\ Forall (fun c => Py.is_ascii_alnum c = true /\ Py.is_ascii_upper c = false) g.1
       /\ g.2 <> []
       /\ Forall (grouped extract_folder listing g.1) g.2) streams
  /\ (forall filename prefix,
        filename ∈ listing ->
        Py.endswith (Py.lower filename) (str ".flv") = true ->
        Re.re_match false stream_pattern filename = Some prefix ->
        exists files,
          (Py.lower prefix, files) ∈ streams
          /\ Os.join extract_folder filename ∈ files).
Proof.
  unfold classify. intros Hsort. apply sort_streams_groups in Hsort.
  destruct (scan_streams_sound extract_folder listing [] []) as [Hnd Hall];
    [apply NoDup_nil_2|apply Forall_nil_2|].
  cbn [app] in Hall.
  set (scanned := scan_streams extract_folder listing []) in *.
  assert (Forall2 (fun g g' => g'.1 = g.1 /\ g'.2 ≡ₚ g.2) scanned streams) as Hrel.
  { eapply Forall2_impl; [exact Hsort|].
    intros g g' [Hname Hs]. split; [done|]. by apply sorted_spec in Hs as (_ & Hp & _). }
  split; [|split].
  - replace (map fst streams) with (map fst scanned); [done|].
    clear -Hrel. induction Hrel as [|g g' a b [Hname _] _ IH]; [done|].
    cbn [map]. by rewrite IH, Hname.
  - clear -Hrel Hall. induction Hrel as [|g g' a b [Hname Hp] _ IH]; [constructor|].
    apply Forall_cons in Hall as [[Hne Hg] Hall]. constructor; [|by apply IH].
    destruct g as [k0 fl0], g' as [k fl]. cbn [fst snd] in *. subst k.
    assert (Forall (grouped extract_folder listing k0) fl) as Hg' by (by rewrite Hp).
    destruct fl as [|path files].
    { symmetry in Hp. by apply Permutation_nil_r in Hp. }
    pose proof (Forall_inv Hg') as Hpath.
    destruct (grouped_key _ _ _ _ Hpath) as [Hk1 Hk2]. done.
  - intros filename prefix Hin He Hm.
    destruct (scan_streams_complete extract_folder listing [] filename prefix Hin He Hm)
      as (files & Hfiles & Hx). fold scanned in Hfiles.
    apply list_elem_of_lookup in Hfiles as [i Hi].
    destruct (Forall2_lookup_l _ _ _ _ _ Hrel Hi) as (g' & Hi' & Hname & Hp).
    exists g'.2. split.
    + apply list_elem_of_lookup. exists i. rewrite Hi'. f_equal.
      destruct g' as [k fl]. cbn [fst snd] in *. by subst.
    + rewrite Hp. done.
Qed.

Lemma classify_groups_witness :
  exists files,
    (str "screenshare", files)
      ∈ [ (str "screenshare",
           [ str "/dl/adobe_connect_12345/screenshare_1.flv";
             str "/dl/adobe_connect_12345/screenshare_2.flv";
             str "/dl/adobe_connect_12345/screenshare_10.flv" ]);
          (str "cameravoip",
           [ str "/dl/adobe_connect_12345/cameravoip_1.flv";
             str "/dl/adobe_connect_12345/cameravoip_3.flv" ]) ]
    /\ str "/dl/adobe_connect_12345/screenshare_10.flv" ∈ files.
Proof.
  apply (proj2 (proj2 (classify_groups Scenario.extract_folder Scenario.listing _
                         ltac:(vm_compute; reflexivity)))
           (str "screenshare_10.flv") (str "screenshare")).
  - right. left.
  - vm_compute. reflexivity.
  - vm_compute. reflexivity.
Defined.
